(** * ErrorBarItem: a shallow embedding of
      [pyqtgraph/graphicsItems/ErrorBarItem.py]

    The item keeps an option set ([self.opts]), a lazily built path
    ([self.path]) and talks to the scene graph through three calls
    ([update], [prepareGeometryChange], [informViewBoundsChanged]).

    Modelling choices:
    - numpy [float64] values are Rocq's primitive binary64 floats;
    - the option set is a record typed after the docstring of [setData]
      ([x], [y]: arrays or [None]; the error magnitudes and [beam]: arrays,
      single values or [None]; [logMode]: a pair of booleans);
    - Python exceptions are values of [exn], carried by the [result] monad;
    - the calls made on the scene graph are logged, in order, in [events];
    - a [QPainterPath] is the sequence of [moveTo]/[lineTo] pairs issued on
      it, one [Line] per pair.

    [paint] strokes the same path with a pen resolved by the toolkit; the
    calls it makes on the painter are logged in the same way. *)

From Stdlib Require Import Floats.
From stdpp Require Import base option list strings.

(** ** Exceptions and the error monad *)


Inductive exn :=
  | NameError           (* UnboundLocalError is a NameError *)
  | IndexError
  | ValueError
  | AttributeError
  | FloatingPointError.

Inductive result (A : Type) :=
  | Ok (a : A)
  | Raise (e : exn).
Arguments Ok {A} a.
Arguments Raise {A} e.

#[global] Instance result_ret : MRet result := λ A a, Ok a.
#[global] Instance result_bind : MBind result := λ A B f m,
  match m with
  | Ok a => f a
  | Raise e => Raise e
  end.
#[global] Instance result_fmap : FMap result := λ A B f m,
  match m with
  | Ok a => Ok (f a)
  | Raise e => Raise e
  end.

(** [v is not None] *)
Definition not_None {A} (v : option A) : bool :=
  match v with
  | Some _ => true
  | None => false
  end.

(** [for i in range(n): body(i)], collecting what each round yields. *)
Fixpoint for_each {A B} (body : A → result B) (l : list A) : result (list B) :=
  match l with
  | [] => Ok []
  | i :: l => b ← body i; bs ← for_each body l; Ok (b :: bs)
  end.

Definition for_range {B} (n : nat) (body : nat → result B) : result (list B) :=
  for_each body (seq 0 n).

(** ** The part of numpy the item uses *)

(** An error magnitude or a beam: a single value or a one-dimensional array. *)
Inductive operand :=
  | Single (v : float)
  | NdArray (a : list float).

(** Broadcasting of two one-dimensional shapes: equal lengths, or one of the
    two has length 1 and is stretched; anything else is a [ValueError]. *)
Definition broadcast {A B C} (f : A → B → C) (a : list A) (b : list B)
  : result (list C) :=
  match a, b with
  | [u], _ => Ok (f u <$> b)
  | _, [v] => Ok ((λ u, f u v) <$> a)
  | _, _ =>
      if decide (length a = length b) then Ok (zip_with f a b)
      else Raise ValueError
  end.

Definition np_arith (f : float → float → float) (a : list float) (b : operand)
  : result (list float) :=
  match b with
  | Single v => Ok ((λ u, f u v) <$> a)
  | NdArray b => broadcast f a b
  end.

Definition np_sub := np_arith PrimFloat.sub.
Definition np_add := np_arith PrimFloat.add.

(** [v / 2.] *)
Definition halve (v : operand) : operand :=
  match v with
  | Single v => Single (PrimFloat.div v 2%float)
  | NdArray a => NdArray ((λ u, PrimFloat.div u 2%float) <$> a)
  end.

Definition np_isnan (a : list float) : list bool := PrimFloat.is_nan <$> a.
Definition np_logical_or (a b : list bool) : result (list bool) := broadcast orb a b.
Definition np_logical_not (a : list bool) : list bool := negb <$> a.

(** [a[mask]] for a boolean [mask]: the entries of [a] where [mask] holds. *)
Fixpoint select {A} (mask : list bool) (a : list A) : list A :=
  match mask, a with
  | m :: mask, v :: a => if m then v :: select mask a else select mask a
  | _, _ => []
  end.

Definition mask_index {A} (a : list A) (mask : list bool) : result (list A) :=
  if decide (length mask = length a) then Ok (select mask a)
  else Raise IndexError.

(** [a[i]] for [i] in [range(...)] (never negative). *)
Definition getitem {A} (a : list A) (i : nat) : result A :=
  match a !! i with
  | Some v => Ok v
  | None => Raise IndexError
  end.

(** The truth value of [beam > 0] in [if ... and beam > 0:]. An array of
    two or more entries has no truth value ([ValueError]); an empty one
    is false. *)
Definition gt_zero (beam : operand) : result bool :=
  match beam with
  | Single b => Ok (PrimFloat.ltb 0%float b)
  | NdArray [] => Ok false
  | NdArray [b] => Ok (PrimFloat.ltb 0%float b)
  | NdArray _ => Raise ValueError
  end.

(** numpy's floating-point error handling, [np.errstate(invalid=, divide=)]. *)
Inductive errmode := ignore | warn | raise.
Record errstate := { invalid : errmode; divide : errmode }.

Definition fp_error (m : errmode) (v : float) : result float :=
  match m with
  | raise => Raise FloatingPointError
  | _ => Ok v
  end.

(** ** The option set, the keyword arguments and the item *)

Inductive Pen := PenSpec (descr : string).

(** [self.opts]. [None] is Python's [None]. *)
Module Opts.
Record t := mk {
  x : option (list float);
  y : option (list float);
  height : option operand;
  width : option operand;
  top : option operand;
  bottom : option operand;
  left : option operand;
  right : option operand;
  beam : option operand;
  pen : option Pen;
  logMode : bool * bool
}.

(** The dictionary built by [__init__]. *)
Definition default : t :=
  mk None None None None None None None None None None (false, false).

Definition with_logMode (o : t) (m : bool * bool) : t :=
  mk (x o) (y o) (height o) (width o) (top o) (bottom o) (left o) (right o)
     (beam o) (pen o) m.

Definition with_top_bottom (o : t) (top' bottom' : option operand) : t :=
  mk (x o) (y o) (height o) (width o) top' bottom' (left o) (right o)
     (beam o) (pen o) (logMode o).

Definition with_beam (o : t) (beam' : option operand) : t :=
  mk (x o) (y o) (height o) (width o) (top o) (bottom o) (left o) (right o)
     beam' (pen o) (logMode o).
End Opts.

(** The keyword arguments of one call of [setData]: for each option, [None]
    when the call does not name it and [Some v] when it passes [v] (which
    may itself be Python's [None]). *)
Module Kwargs.
Record t := mk {
  x : option (option (list float));
  y : option (option (list float));
  height : option (option operand);
  width : option (option operand);
  top : option (option operand);
  bottom : option (option operand);
  left : option (option operand);
  right : option (option operand);
  beam : option (option operand);
  pen : option (option Pen);
  logMode : option (bool * bool)
}.

(** A call without arguments. *)
Definition empty : t :=
  mk None None None None None None None None None None None.
End Kwargs.

(** [self.opts.update(opts)] *)
Definition dict_update (o : Opts.t) (kw : Kwargs.t) : Opts.t :=
  {| Opts.x := default (Opts.x o) (Kwargs.x kw);
     Opts.y := default (Opts.y o) (Kwargs.y kw);
     Opts.height := default (Opts.height o) (Kwargs.height kw);
     Opts.width := default (Opts.width o) (Kwargs.width kw);
     Opts.top := default (Opts.top o) (Kwargs.top kw);
     Opts.bottom := default (Opts.bottom o) (Kwargs.bottom kw);
     Opts.left := default (Opts.left o) (Kwargs.left kw);
     Opts.right := default (Opts.right o) (Kwargs.right kw);
     Opts.beam := default (Opts.beam o) (Kwargs.beam kw);
     Opts.pen := default (Opts.pen o) (Kwargs.pen kw);
     Opts.logMode := default (Opts.logMode o) (Kwargs.logMode kw) |}.

(** One [moveTo(x1, y1)] followed by one [lineTo(x2, y2)]. *)
Inductive segment := Line (x1 y1 x2 y2 : float).

Definition QPainterPath := list segment.

(** The calls the item makes on the scene graph. *)
Inductive notification :=
  | Update
  | PrepareGeometryChange
  | InformViewBoundsChanged.

Record ErrorBarItem := mkItem {
  opts : Opts.t;
  path : option QPainterPath;
  events : list notification
}.

(** ** setData, setOpts, setLogMode *)

Definition setData (self : ErrorBarItem) (kw : Kwargs.t) : ErrorBarItem :=
  {| opts := dict_update (opts self) kw;
     path := None;
     events := events self ++ [Update; PrepareGeometryChange; InformViewBoundsChanged] |}.

Definition setOpts (self : ErrorBarItem) (kw : Kwargs.t) : ErrorBarItem :=
  setData self kw.

(** [__init__]: the default dictionary, then [setData] on the keyword
    arguments. *)
Definition init (kw : Kwargs.t) : ErrorBarItem :=
  setData {| opts := Opts.default; path := None; events := [] |} kw.

Definition setLogMode (self : ErrorBarItem) (xMode yMode : bool) : ErrorBarItem :=
  if decide (Opts.logMode (opts self) = (xMode, yMode)) then self
  else
    {| opts := Opts.with_logMode (opts self) (xMode, yMode);
       path := None;
       events := events self ++ [Update; PrepareGeometryChange; InformViewBoundsChanged] |}.

(** ** The strokes of one pass *)

(** What a pass draws: the bars themselves, then the caps at the far end
    ([y2], resp. [x2]), then the caps at the near end ([y1], resp. [x1]). *)
Record strokes := mkStrokes {
  bars : list segment;
  caps_far : list segment;
  caps_near : list segment
}.

(** The order in which a pass issues them on the path. *)
Definition issued (s : strokes) : list segment :=
  bars s ++ caps_far s ++ caps_near s.

(** ** getDrawValue, drawPath, boundingRect *)

Section Item.

(** The C library's [log10] on the inputs it maps to a number without
    signalling: the positive ones, [+inf] included. *)
Variable log10_pos : float → float.

(** Qt's rectangle type and [QPainterPath.boundingRect]. *)
Variable QRectF : Type.
Variable QPainterPath_boundingRect : QPainterPath → QRectF.

(** [np.log10] on one [float64] under the error state [es]: NaN stays NaN,
    a negative input is an invalid operation (NaN), a zero of either sign
    is a division by zero ([-inf]). *)
Definition log10 (es : errstate) (v : float) : result float :=
  if PrimFloat.is_nan v then Ok PrimFloat.nan
  else if PrimFloat.ltb v 0%float then fp_error (invalid es) PrimFloat.nan
  else if PrimFloat.eqb v 0%float then fp_error (divide es) PrimFloat.neg_infinity
  else Ok (log10_pos v).

Definition np_log10 (es : errstate) (data : list float) : result (list float) :=
  for_each (log10 es) data.

Definition getDrawValue (o : Opts.t) (data : list float) (horizontal : bool)
  : result (list float) :=
  let log := (horizontal && fst (Opts.logMode o))
             || (negb horizontal && snd (Opts.logMode o)) in
  if log then np_log10 {| invalid := ignore; divide := ignore |} data
  else Ok data.

(** Lines 80-91: the two ends of the vertical bars, before the transform. *)
Definition verticalEnds (y : list float) (height top bottom : option operand)
  : result (list float * list float) :=
  match height with
  | Some height =>
      y1 ← np_sub y (halve height);
      y2 ← np_add y (halve height);
      Ok (y1, y2)
  | None =>
      y1 ← match bottom with
           | None => Ok y
           | Some bottom => np_sub y bottom
           end;
      y2 ← match top with
           | None => Ok y
           | Some top => np_add y top
           end;
      Ok (y1, y2)
  end.

(** Lines 122-133, the same for the horizontal bars. *)
Definition horizontalEnds (x : list float) (width left_ right_ : option operand)
  : result (list float * list float) :=
  match width with
  | Some width =>
      x1 ← np_sub x (halve width);
      x2 ← np_add x (halve width);
      Ok (x1, x2)
  | None =>
      x1 ← match left_ with
           | None => Ok x
           | Some left_ => np_sub x left_
           end;
      x2 ← match right_ with
           | None => Ok x
           | Some right_ => np_add x right_
           end;
      Ok (x1, x2)
  end.

(** Lines 98-101 and 140-143: the mask of the points to keep, applied to
    each of the three arrays. *)
Definition nan_filter (a b c : list float)
  : result (list float * list float * list float) :=
  inner ← np_logical_or (np_isnan b) (np_isnan c);
  is_nan ← np_logical_or (np_isnan a) inner;
  a' ← mask_index a (np_logical_not is_nan);
  b' ← mask_index b (np_logical_not is_nan);
  c' ← mask_index c (np_logical_not is_nan);
  Ok (a', b', c').

(** [for i in range(n): p.moveTo(ax[i], ay[i]); p.lineTo(bx[i], by[i])] *)
Definition draw_lines (n : nat) (ax ay bx by_ : list float) : result (list segment) :=
  for_range n (λ i,
    a ← getitem ax i; b ← getitem ay i;
    c ← getitem bx i; d ← getitem by_ i;
    Ok (Line a b c d)).

(** Lines 93-117. Returns the strokes and the local [rx] as the pass
    leaves it. *)
Definition verticalPass (o : Opts.t) (x y : list float)
  : result (strokes * list float) :=
  '(y1, y2) ← verticalEnds y (Opts.height o) (Opts.top o) (Opts.bottom o);
  rx ← getDrawValue o x true;
  ry1 ← getDrawValue o y1 false;
  ry2 ← getDrawValue o y2 false;
  '(rx, ry1, ry2) ← nan_filter rx ry1 ry2;
  stems ← draw_lines (length rx) rx ry1 rx ry2;
  match Opts.beam o with
  | Some beam =>
      positive ← gt_zero beam;
      if (positive : bool) then
        x1 ← np_sub rx (halve beam);
        x2 ← np_add rx (halve beam);
        far ← (if not_None (Opts.height o) || not_None (Opts.top o)
               then draw_lines (length rx) x1 ry2 x2 ry2
               else Ok []);
        near ← (if not_None (Opts.height o) || not_None (Opts.bottom o)
                then draw_lines (length rx) x1 ry1 x2 ry1
                else Ok []);
        Ok (mkStrokes stems far near, rx)
      else Ok (mkStrokes stems [] [], rx)
  | None => Ok (mkStrokes stems [] [], rx)
  end.

(** [len(rx)] in the horizontal pass: [rx] is the local the vertical pass
    assigned, unbound when that pass did not run. *)
Definition len_rx (rx : option (list float)) : result nat :=
  match rx with
  | Some rx => Ok (length rx)
  | None => Raise NameError
  end.

(** Lines 122-159. [rx] is the local variable left by the vertical pass. *)
Definition horizontalPass (o : Opts.t) (x y : list float) (rx : option (list float))
  : result strokes :=
  '(x1, x2) ← horizontalEnds x (Opts.width o) (Opts.left o) (Opts.right o);
  rx1 ← getDrawValue o x1 true;
  rx2 ← getDrawValue o x2 true;
  ry ← getDrawValue o y false;
  '(rx1, rx2, ry) ← nan_filter rx1 rx2 ry;
  n ← len_rx rx;
  stems ← draw_lines n rx1 ry rx2 ry;
  match Opts.beam o with
  | Some beam =>
      positive ← gt_zero beam;
      if (positive : bool) then
        y1 ← np_sub ry (halve beam);
        y2 ← np_add ry (halve beam);
        far ← (if not_None (Opts.width o) || not_None (Opts.right o)
               then draw_lines n rx2 y1 rx2 y2
               else Ok []);
        near ← (if not_None (Opts.width o) || not_None (Opts.left o)
                then draw_lines n rx1 y1 rx1 y2
                else Ok []);
        Ok (mkStrokes stems far near)
      else Ok (mkStrokes stems [] [])
  | None => Ok (mkStrokes stems [] [])
  end.

(** The body of [drawPath] up to line 159, as a function of the option set:
    what the vertical and the horizontal pass draw, or [None] when the
    method returns at line 73. A pass that does not run draws nothing. *)
Definition drawStrokes (o : Opts.t) : result (option (strokes * strokes)) :=
  match Opts.x o, Opts.y o with
  | Some x, Some y =>
      '(v, rx) ←
        (if not_None (Opts.height o) || not_None (Opts.top o)
            || not_None (Opts.bottom o)
         then '(s, rx) ← verticalPass o x y; Ok (s, Some rx)
         else Ok (mkStrokes [] [] [], None));
      h ←
        (if not_None (Opts.width o) || not_None (Opts.right o)
            || not_None (Opts.left o)
         then horizontalPass o x y rx
         else Ok (mkStrokes [] [] []));
      Ok (Some (v, h))
  | _, _ => Ok None
  end.

(** The path [p] that reaches [self.path = p], if the method gets there. *)
Definition buildPath (o : Opts.t) : result (option QPainterPath) :=
  r ← drawStrokes o;
  match r with
  | Some (v, h) => Ok (Some (issued v ++ issued h))
  | None => Ok None
  end.

Definition drawPath (self : ErrorBarItem) : result ErrorBarItem :=
  r ← buildPath (opts self);
  match r with
  | Some p =>
      Ok {| opts := opts self;
            path := Some p;
            events := events self ++ [PrepareGeometryChange] |}
  | None => Ok self
  end.

Definition boundingRect (self : ErrorBarItem) : result (QRectF * ErrorBarItem) :=
  self ← match path self with
         | None => drawPath self
         | Some _ => Ok self
         end;
  match path self with
  | Some p => Ok (QPainterPath_boundingRect p, self)
  | None => Raise AttributeError
  end.

End Item.

(** ** What the specification says of a pass, in its own words *)

(** The log flag of the axis a value lies on: the x-axis flag for horizontal
    data, the y-axis flag otherwise. *)
Definition axis_log (o : Opts.t) (horizontal : bool) : bool :=
  if horizontal then fst (Opts.logMode o) else snd (Opts.logMode o).

(** "Drop any index i where rx[i], ry1[i] or ry2[i] is NaN; emit one segment
    per surviving index, from (rx[i], ry1[i]) to (rx[i], ry2[i])": what the
    point of one index contributes to the vertical bars. *)
Definition point_bar (a b c : float) : list segment :=
  if PrimFloat.is_nan a || PrimFloat.is_nan b || PrimFloat.is_nan c then []
  else [Line a b a c].

Fixpoint spec_vertical_bars (rx ry1 ry2 : list float) : list segment :=
  match rx, ry1, ry2 with
  | a :: rx, b :: ry1, c :: ry2 => point_bar a b c ++ spec_vertical_bars rx ry1 ry2
  | _, _, _ => []
  end.

(** The mask of lines 98-101 on three arrays of one length: true at the
    indices where none of the three values is NaN. *)
Definition keep_mask (a b c : list float) : list bool :=
  negb <$> zip_with orb (PrimFloat.is_nan <$> a)
             (zip_with orb (PrimFloat.is_nan <$> b) (PrimFloat.is_nan <$> c)).

(** One line per index of four arrays of the same length. *)
Fixpoint lines (ax ay bx by_ : list float) : list segment :=
  match ax, ay, bx, by_ with
  | a :: ax, b :: ay, c :: bx, d :: by_ => Line a b c d :: lines ax ay bx by_
  | _, _, _, _ => []
  end.

(** The entry of an error magnitude that goes with point [i]: a single
    value is shared by all points. *)
Definition operand_at (v : operand) (i : nat) : option float :=
  match v with
  | Single v => Some v
  | NdArray a => a !! i
  end.

(** An error magnitude fits [n] points without stretching either side. *)
Definition fits (n : nat) (v : operand) : Prop :=
  match v with
  | Single _ => True
  | NdArray a => length a = n
  end.

(** ** Concrete option sets *)

(** The closed runs below never reach the C library's branch of [log10]:
    their log flags are off, or the values they transform are zero,
    negative or NaN. They pass this function for it. *)
Definition log10_unreached (v : float) : float := v.

Definition arr (l : list float) : option operand := Some (NdArray l).
Definition val (v : float) : option operand := Some (Single v).

(** Scenario A: top and bottom bars with a beam. *)
Definition scenario_A : Opts.t :=
  {| Opts.x := Some [1; 2]%float; Opts.y := Some [10; 20]%float;
     Opts.height := None; Opts.width := None;
     Opts.top := arr [1; 1]%float; Opts.bottom := arr [1; 1]%float;
     Opts.left := None; Opts.right := None;
     Opts.beam := val 0.5%float; Opts.pen := None;
     Opts.logMode := (false, false) |}.

(** Scenario B: scenario A with [height] set as well. *)
Definition scenario_B : Opts.t :=
  {| Opts.x := Some [1; 2]%float; Opts.y := Some [10; 20]%float;
     Opts.height := arr [4; 4]%float; Opts.width := None;
     Opts.top := arr [1; 1]%float; Opts.bottom := arr [1; 1]%float;
     Opts.left := None; Opts.right := None;
     Opts.beam := val 0.5%float; Opts.pen := None;
     Opts.logMode := (false, false) |}.

(** Scenario C: a bar that reaches below zero on a logarithmic y axis. *)
Definition scenario_C : Opts.t :=
  {| Opts.x := Some [1]%float; Opts.y := Some [0]%float;
     Opts.height := arr [2]%float; Opts.width := None;
     Opts.top := None; Opts.bottom := None;
     Opts.left := None; Opts.right := None;
     Opts.beam := None; Opts.pen := None;
     Opts.logMode := (false, true) |}.

(** One point with a horizontal bar and no vertical one. *)
Definition only_width : Opts.t :=
  {| Opts.x := Some [1]%float; Opts.y := Some [1]%float;
     Opts.height := None; Opts.width := val 2%float;
     Opts.top := None; Opts.bottom := None;
     Opts.left := None; Opts.right := None;
     Opts.beam := None; Opts.pen := None;
     Opts.logMode := (false, false) |}.

(** Two points; the first has a NaN [top], both have a valid [width]. *)
Definition nan_top : Opts.t :=
  {| Opts.x := Some [1; 2]%float; Opts.y := Some [1; 1]%float;
     Opts.height := None; Opts.width := val 1%float;
     Opts.top := arr [PrimFloat.nan; 1%float]; Opts.bottom := None;
     Opts.left := None; Opts.right := None;
     Opts.beam := None; Opts.pen := None;
     Opts.logMode := (false, false) |}.

(** Two points; the first has a NaN [width], both have a valid [height]. *)
Definition nan_width : Opts.t :=
  {| Opts.x := Some [1; 2]%float; Opts.y := Some [1; 1]%float;
     Opts.height := val 1%float; Opts.width := arr [PrimFloat.nan; 1%float];
     Opts.top := None; Opts.bottom := None;
     Opts.left := None; Opts.right := None;
     Opts.beam := None; Opts.pen := None;
     Opts.logMode := (false, false) |}.

(** An item whose x axis is logarithmic. *)
Definition x_log : Opts.t := Opts.with_logMode Opts.default (true, false).

(** An item built from an option set, with its path not built yet. *)
Definition stale (o : Opts.t) : ErrorBarItem :=
  {| opts := o; path := None; events := [] |}.

(** ** paint and sequences of calls *)

(** The calls [paint] makes on the painter [p] it is given, in order. What
    the toolkit does with them is outside the model. *)
Inductive painter_call (QPen : Type) :=
  | SetPen (pen : QPen)
  | DrawPath (path : option QPainterPath).
Arguments SetPen {QPen} pen.
Arguments DrawPath {QPen} path.

Section Painting.

Variable log10_pos : float → float.
Variable QRectF : Type.
Variable QPainterPath_boundingRect : QPainterPath → QRectF.

(** The toolkit's pen type, [fn.mkPen] and [getConfigOption('foreground')]. *)
Variable QPen : Type.
Variable mkPen : Pen → QPen.
Variable foreground : Pen.

Definition paint (self : ErrorBarItem) (p : list (painter_call QPen))
  : result (ErrorBarItem * list (painter_call QPen)) :=
  self ← match path self with
         | None => drawPath log10_pos self
         | Some _ => Ok self
         end;
  let pen := match Opts.pen (opts self) with
             | None => foreground
             | Some pen => pen
             end in
  Ok (self, p ++ [SetPen (mkPen pen); DrawPath (path self)]).

(** One call on the item from outside. *)
Inductive call :=
  | CallSetData (kw : Kwargs.t)
  | CallSetOpts (kw : Kwargs.t)
  | CallSetLogMode (xMode yMode : bool)
  | CallDrawPath
  | CallBoundingRect
  | CallPaint.

(** The item after one call. A method that raises has not assigned any
    attribute before it does, so the item is then as it was. *)
Definition after (self : ErrorBarItem) (c : call) : ErrorBarItem :=
  match c with
  | CallSetData kw => setData self kw
  | CallSetOpts kw => setOpts self kw
  | CallSetLogMode xMode yMode => setLogMode self xMode yMode
  | CallDrawPath =>
      match drawPath log10_pos self with
      | Ok self' => self'
      | Raise _ => self
      end
  | CallBoundingRect =>
      match boundingRect log10_pos QRectF QPainterPath_boundingRect self with
      | Ok (_, self') => self'
      | Raise _ => self
      end
  | CallPaint =>
      match paint self [] with
      | Ok (self', _) => self'
      | Raise _ => self
      end
  end.

(** The item after a sequence of calls on a fresh [ErrorBarItem(...)]. *)
Definition history (kw : Kwargs.t) (calls : list call) : ErrorBarItem :=
  foldl after (init kw) calls.

(** The cached path, when there is one, is the path of the stored options. *)
Definition coherent (self : ErrorBarItem) : Prop :=
  match path self with
  | None => True
  | Some p => buildPath log10_pos (opts self) = Ok (Some p)
  end.

End Painting.

(** ** Further vocabulary for the properties *)

(** Two calls of [setData] seen as one: the later call wins where both name
    an option. *)
Definition kwargs_then (k1 k2 : Kwargs.t) : Kwargs.t :=
  {| Kwargs.x := match Kwargs.x k2 with Some v => Some v | None => Kwargs.x k1 end;
     Kwargs.y := match Kwargs.y k2 with Some v => Some v | None => Kwargs.y k1 end;
     Kwargs.height :=
       match Kwargs.height k2 with Some v => Some v | None => Kwargs.height k1 end;
     Kwargs.width :=
       match Kwargs.width k2 with Some v => Some v | None => Kwargs.width k1 end;
     Kwargs.top := match Kwargs.top k2 with Some v => Some v | None => Kwargs.top k1 end;
     Kwargs.bottom :=
       match Kwargs.bottom k2 with Some v => Some v | None => Kwargs.bottom k1 end;
     Kwargs.left :=
       match Kwargs.left k2 with Some v => Some v | None => Kwargs.left k1 end;
     Kwargs.right :=
       match Kwargs.right k2 with Some v => Some v | None => Kwargs.right k1 end;
     Kwargs.beam :=
       match Kwargs.beam k2 with Some v => Some v | None => Kwargs.beam k1 end;
     Kwargs.pen := match Kwargs.pen k2 with Some v => Some v | None => Kwargs.pen k1 end;
     Kwargs.logMode :=
       match Kwargs.logMode k2 with Some v => Some v | None => Kwargs.logMode k1 end |}.

Definition with_left_right (o : Opts.t) (left' right' : option operand) : Opts.t :=
  Opts.mk (Opts.x o) (Opts.y o) (Opts.height o) (Opts.width o) (Opts.top o)
    (Opts.bottom o) left' right' (Opts.beam o) (Opts.pen o) (Opts.logMode o).

(** An optional error magnitude fits [n] points. *)
Definition fits_opt (n : nat) (v : option operand) : Prop :=
  match v with
  | None => True
  | Some v => fits n v
  end.

(** What the point of one index contributes to the horizontal bars: nothing
    when [rx1], [rx2] or [ry] is NaN there, the segment from [(rx1, ry)] to
    [(rx2, ry)] otherwise. *)
Definition point_hbar (a b c : float) : list segment :=
  if PrimFloat.is_nan a || PrimFloat.is_nan b || PrimFloat.is_nan c then []
  else [Line a c b c].

Fixpoint spec_horizontal_bars (rx1 rx2 ry : list float) : list segment :=
  match rx1, rx2, ry with
  | a :: rx1, b :: rx2, c :: ry => point_hbar a b c ++ spec_horizontal_bars rx1 rx2 ry
  | _, _, _ => []
  end.

(** The caps of width [beam] across the two ends of a vertical bar. *)
Definition cap_far (beam : float) (bar : segment) : segment :=
  match bar with
  | Line x _ _ y2 =>
      Line (PrimFloat.sub x (PrimFloat.div beam 2%float)) y2
           (PrimFloat.add x (PrimFloat.div beam 2%float)) y2
  end.

Definition cap_near (beam : float) (bar : segment) : segment :=
  match bar with
  | Line x y1 _ _ =>
      Line (PrimFloat.sub x (PrimFloat.div beam 2%float)) y1
           (PrimFloat.add x (PrimFloat.div beam 2%float)) y1
  end.

(** The caps of height [beam] across the two ends of a horizontal bar. *)
Definition hcap_far (beam : float) (bar : segment) : segment :=
  match bar with
  | Line _ y x2 _ =>
      Line x2 (PrimFloat.sub y (PrimFloat.div beam 2%float))
           x2 (PrimFloat.add y (PrimFloat.div beam 2%float))
  end.

Definition hcap_near (beam : float) (bar : segment) : segment :=
  match bar with
  | Line x1 y _ _ =>
      Line x1 (PrimFloat.sub y (PrimFloat.div beam 2%float))
           x1 (PrimFloat.add y (PrimFloat.div beam 2%float))
  end.

(** [m] raises nothing but exceptions in [P]. *)
Definition raises_only {A} (P : exn → Prop) (m : result A) : Prop :=
  ∀ e, m = Raise e → P e.

Definition shape_error (e : exn) : Prop := e = ValueError ∨ e = IndexError.

(** Option sets for the closed instances. *)

(** Three points, each with a vertical bar of height 2 and a beam of 1. *)
Definition three_bars : Opts.t :=
  {| Opts.x := Some [1; 2; 3]%float; Opts.y := Some [5; 6; 7]%float;
     Opts.height := val 2%float; Opts.width := None;
     Opts.top := None; Opts.bottom := None;
     Opts.left := None; Opts.right := None;
     Opts.beam := val 1%float; Opts.pen := None;
     Opts.logMode := (false, false) |}.

(** Two points with both a vertical and a horizontal bar, and a beam. *)
Definition cross_bars : Opts.t :=
  {| Opts.x := Some [1; 2]%float; Opts.y := Some [5; 6]%float;
     Opts.height := val 2%float; Opts.width := val 1%float;
     Opts.top := None; Opts.bottom := None;
     Opts.left := arr [3; 3]%float; Opts.right := None;
     Opts.beam := val 1%float; Opts.pen := None;
     Opts.logMode := (false, false) |}.

(** [cross_bars] without beam. *)
Definition cross_bars_plain : Opts.t := Opts.with_beam cross_bars None.

(** Two points and a [height] of three entries. *)
Definition bad_height : Opts.t :=
  {| Opts.x := Some [1; 2]%float; Opts.y := Some [5; 6]%float;
     Opts.height := arr [1; 1; 1]%float; Opts.width := None;
     Opts.top := None; Opts.bottom := None;
     Opts.left := None; Opts.right := None;
     Opts.beam := None; Opts.pen := None;
     Opts.logMode := (false, false) |}.

(** * Properties *)

(** ** The error monad and the loops *)

Lemma bind_Ok {A B} (m : result A) (f : A → result B) (b : B) :
  m ≫= f = Ok b → ∃ a, m = Ok a ∧ f a = Ok b.
Proof. destruct m as [a|e]; simpl; [eauto | discriminate]. Qed.

Ltac bind_inv H :=
  let a := fresh "v" in
  let Ha := fresh "E" in
  apply bind_Ok in H; destruct H as (a & Ha & H).

Lemma for_each_fmap {A B C} (f : A → B) (body : B → result C) (l : list A) :
  for_each body (f <$> l) = for_each (body ∘ f) l.
Proof. induction l as [|a l IH]; csimpl; [done | by rewrite IH]. Qed.

Lemma for_each_length {A B} (body : A → result B) (l : list A) (bs : list B) :
  for_each body l = Ok bs → length bs = length l.
Proof.
  revert bs. induction l as [|a l IH]; simpl; intros bs H.
  - by inversion H.
  - bind_inv H. bind_inv H. inversion H; subst. simpl. f_equal. by apply IH.
Qed.

Lemma for_range_S {B} (n : nat) (body : nat → result B) :
  for_range (S n) body
  = (b ← body 0; bs ← for_range n (body ∘ S); Ok (b :: bs)).
Proof.
  unfold for_range. rewrite <- cons_seq, <- fmap_S_seq. simpl.
  by rewrite for_each_fmap.
Qed.

Lemma draw_lines_cons (n : nat) (a b c d : float) (ax ay bx by_ : list float) :
  draw_lines (S n) (a :: ax) (b :: ay) (c :: bx) (d :: by_)
  = (rest ← draw_lines n ax ay bx by_; Ok (Line a b c d :: rest)).
Proof. unfold draw_lines. rewrite for_range_S. reflexivity. Qed.

Lemma draw_lines_length (n : nat) (ax ay bx by_ : list float) (l : list segment) :
  draw_lines n ax ay bx by_ = Ok l → length l = n.
Proof.
  unfold draw_lines, for_range. intros H%for_each_length.
  by rewrite length_seq in H.
Qed.

Lemma draw_lines_full (ax ay bx by_ : list float) :
  length ay = length ax → length bx = length ax → length by_ = length ax →
  draw_lines (length ax) ax ay bx by_ = Ok (lines ax ay bx by_).
Proof.
  revert ay bx by_.
  induction ax as [|a ax IH]; intros [|b ay] [|c bx] [|d by_]; simpl; try done.
  intros Hy Hx Hb. rewrite draw_lines_cons, IH by congruence. done.
Qed.

(** ** Broadcasting and the NaN filter on well-shaped arrays *)

Lemma broadcast_same_length {A B C} (f : A → B → C) (a : list A) (b : list B) :
  length a = length b → broadcast f a b = Ok (zip_with f a b).
Proof.
  intros H. unfold broadcast.
  destruct a as [|u [|u' a]], b as [|v [|v' b]]; simpl in *; try done.
  all: by rewrite decide_True.
Qed.

Lemma np_arith_fits (f : float → float → float) (a : list float) (v : operand) :
  fits (length a) v →
  ∃ r, np_arith f a v = Ok r ∧ length r = length a ∧
       ∀ i u w, a !! i = Some u → operand_at v i = Some w → r !! i = Some (f u w).
Proof.
  destruct v as [v|b]; simpl; intros H.
  - eexists; split; [done|]. split; [by rewrite length_fmap|].
    intros i u w Hu [= <-]. by rewrite list_lookup_fmap, Hu.
  - rewrite broadcast_same_length by done.
    eexists; split; [done|]. split.
    + rewrite length_zip_with. lia.
    + intros i u w Hu Hw. rewrite lookup_zip_with, Hu. simpl. by rewrite Hw.
Qed.

Lemma mask_index_Ok {A} (a r : list A) (mask : list bool) :
  mask_index a mask = Ok r → length mask = length a ∧ r = select mask a.
Proof. unfold mask_index. case_decide; [|done]. by intros [= <-]. Qed.

Lemma nan_filter_shape (a b c a' b' c' : list float) :
  nan_filter a b c = Ok (a', b', c') →
  length b = length a ∧ length c = length a.
Proof.
  unfold nan_filter. intros H.
  bind_inv H. bind_inv H. bind_inv H. bind_inv H. bind_inv H.
  apply mask_index_Ok in E1 as [L1 _], E2 as [L2 _], E3 as [L3 _].
  split; congruence.
Qed.

Lemma nan_filter_same_length (a b c : list float) :
  length b = length a → length c = length a →
  nan_filter a b c
  = Ok (select (keep_mask a b c) a, select (keep_mask a b c) b,
        select (keep_mask a b c) c).
Proof.
  intros Hb Hc. unfold nan_filter, np_logical_or, np_isnan, np_logical_not.
  rewrite broadcast_same_length by (by rewrite !length_fmap, Hb, Hc).
  simpl.
  rewrite broadcast_same_length
    by (rewrite length_zip_with, !length_fmap; lia).
  simpl. fold (keep_mask a b c).
  assert (length (keep_mask a b c) = length a) as Hm.
  { unfold keep_mask. rewrite length_fmap, !length_zip_with, !length_fmap. lia. }
  unfold mask_index.
  rewrite !decide_True by congruence. done.
Qed.

Lemma select_length_same {A B} (mask : list bool) (a : list A) (b : list B) :
  length a = length b → length (select mask a) = length (select mask b).
Proof.
  revert a b. induction mask as [|m mask IH]; intros [|u a] [|v b]; simpl; try done.
  intros [= H]. destruct m; simpl; auto.
Qed.

Lemma lines_vertical_bars (a b c : list float) :
  length b = length a → length c = length a →
  lines (select (keep_mask a b c) a) (select (keep_mask a b c) b)
        (select (keep_mask a b c) a) (select (keep_mask a b c) c)
  = spec_vertical_bars a b c.
Proof.
  revert b c.
  induction a as [|u a IH]; intros [|v b] [|w c]; simpl; try done.
  intros [= Hb] [= Hc]. unfold keep_mask in *. csimpl. unfold point_bar.
  destruct (PrimFloat.is_nan u), (PrimFloat.is_nan v), (PrimFloat.is_nan w);
    simpl; rewrite IH by done; done.
Qed.

(** ** setData and setLogMode *)

(** C9: [setData] merges: each option named in the call takes the value
    passed, each option the call does not name keeps the value it had, and
    the cached path is marked unbuilt. *)
Theorem setData_merges (self : ErrorBarItem) (kw : Kwargs.t) :
  Opts.x (opts (setData self kw))
    = match Kwargs.x kw with Some v => v | None => Opts.x (opts self) end
  ∧ Opts.y (opts (setData self kw))
    = match Kwargs.y kw with Some v => v | None => Opts.y (opts self) end
  ∧ Opts.height (opts (setData self kw))
    = match Kwargs.height kw with Some v => v | None => Opts.height (opts self) end
  ∧ Opts.width (opts (setData self kw))
    = match Kwargs.width kw with Some v => v | None => Opts.width (opts self) end
  ∧ Opts.top (opts (setData self kw))
    = match Kwargs.top kw with Some v => v | None => Opts.top (opts self) end
  ∧ Opts.bottom (opts (setData self kw))
    = match Kwargs.bottom kw with Some v => v | None => Opts.bottom (opts self) end
  ∧ Opts.left (opts (setData self kw))
    = match Kwargs.left kw with Some v => v | None => Opts.left (opts self) end
  ∧ Opts.right (opts (setData self kw))
    = match Kwargs.right kw with Some v => v | None => Opts.right (opts self) end
  ∧ Opts.beam (opts (setData self kw))
    = match Kwargs.beam kw with Some v => v | None => Opts.beam (opts self) end
  ∧ Opts.pen (opts (setData self kw))
    = match Kwargs.pen kw with Some v => v | None => Opts.pen (opts self) end
  ∧ Opts.logMode (opts (setData self kw))
    = match Kwargs.logMode kw with Some v => v | None => Opts.logMode (opts self) end
  ∧ path (setData self kw) = None.
Proof.
  destruct kw as [kx ky kh kw kt kb kl kr kbm kp klm]; simpl.
  destruct kx, ky, kh, kw, kt, kb, kl, kr, kbm, kp, klm; simpl; repeat split.
Qed.

Lemma dict_update_empty (o : Opts.t) : dict_update o Kwargs.empty = o.
Proof. by destruct o. Qed.

(** C10: [setData] does not look at what changed: every call leaves the
    path unbuilt and makes the three calls on the scene graph, also a call
    without arguments, which leaves every option as it was; [setLogMode]
    with the stored pair makes none. *)
Theorem setData_always_invalidates (self : ErrorBarItem) (kw : Kwargs.t) :
  path (setData self kw) = None
  ∧ events (setData self kw)
    = events self ++ [Update; PrepareGeometryChange; InformViewBoundsChanged]
  ∧ opts (setData self Kwargs.empty) = opts self
  ∧ events (setData self Kwargs.empty)
    = events self ++ [Update; PrepareGeometryChange; InformViewBoundsChanged]
  ∧ events (setLogMode self (Opts.logMode (opts self)).1 (Opts.logMode (opts self)).2)
    = events self.
Proof.
  repeat split; simpl.
  - apply dict_update_empty.
  - unfold setLogMode. rewrite decide_True; [done|].
    by destruct (Opts.logMode (opts self)).
Qed.

(** C8: [setLogMode(a, b)] returns at once, with the item as it was, when
    the stored pair is [(a, b)]; otherwise it stores the pair, marks the
    path unbuilt and makes the three calls on the scene graph. *)
Theorem setLogMode_noop_or_invalidate (self : ErrorBarItem) (a b : bool) :
  (Opts.logMode (opts self) = (a, b) → setLogMode self a b = self)
  ∧ (Opts.logMode (opts self) ≠ (a, b) →
     setLogMode self a b
     = {| opts := Opts.with_logMode (opts self) (a, b);
          path := None;
          events := events self
                    ++ [Update; PrepareGeometryChange; InformViewBoundsChanged] |}).
Proof.
  unfold setLogMode. split; intros H.
  - by rewrite decide_True.
  - by rewrite decide_False.
Qed.

Section Drawing.

Variable log10_pos : float → float.
Variable QRectF : Type.
Variable QPainterPath_boundingRect : QPainterPath → QRectF.

(** ** drawPath and boundingRect without coordinates *)

Lemma drawStrokes_without_xy (o : Opts.t) :
  Opts.x o = None ∨ Opts.y o = None → drawStrokes log10_pos o = Ok None.
Proof.
  unfold drawStrokes. intros [-> | ->]; [done|]. by destruct (Opts.x o).
Qed.

(** C1: with [x] or [y] absent and no path built yet, [drawPath] returns
    at line 73 without storing the path it created, so the item is
    unchanged, its path is still [None], and [boundingRect] raises
    [AttributeError] on it. *)
Theorem boundingRect_without_xy (self : ErrorBarItem) :
  path self = None →
  Opts.x (opts self) = None ∨ Opts.y (opts self) = None →
  drawPath log10_pos self = Ok self
  ∧ boundingRect log10_pos QRectF QPainterPath_boundingRect self
    = Raise AttributeError.
Proof.
  intros Hp Hxy.
  assert (drawPath log10_pos self = Ok self) as Hd.
  { unfold drawPath, buildPath. by rewrite drawStrokes_without_xy. }
  split; [done|].
  unfold boundingRect. rewrite Hp, Hd. simpl. by rewrite Hp.
Qed.

(** ** The horizontal pass and the local [rx] *)

(** Without a vertical option the horizontal pass never gets through:
    whatever it computes first, it then reads the unbound [rx]. *)
Lemma horizontalPass_unbound_rx (o : Opts.t) (x y : list float) :
  ∃ e, horizontalPass log10_pos o x y None = Raise e.
Proof.
  unfold horizontalPass.
  destruct (horizontalEnds _ _ _ _) as [[x1 x2]|e]; simpl; [|by eexists].
  destruct (getDrawValue _ _ x1 _) as [rx1|e]; simpl; [|by eexists].
  destruct (getDrawValue _ _ x2 _) as [rx2|e]; simpl; [|by eexists].
  destruct (getDrawValue _ _ y _) as [ry|e]; simpl; [|by eexists].
  destruct (nan_filter _ _ _) as [[[? ?] ?]|e]; simpl; by eexists.
Qed.

(** C2: the loops of the horizontal pass run over [range(len(rx))], the
    array the vertical pass filtered. Without a vertical pass [rx] is
    unbound, so every option set with a horizontal option and no vertical
    one makes [drawPath] raise ([only_width] is one); when the vertical pass
    kept one point of two, one horizontal bar is drawn although both points
    pass the horizontal filter ([nan_top]); when it kept more points than
    the horizontal filter, the loop indexes past the end ([nan_width]). *)
Theorem horizontal_pass_uses_vertical_rx :
  (∀ o x y,
     Opts.x o = Some x → Opts.y o = Some y →
     Opts.height o = None → Opts.top o = None → Opts.bottom o = None →
     not_None (Opts.width o) || not_None (Opts.right o) || not_None (Opts.left o)
       = true →
     ∃ e, buildPath log10_pos o = Raise e)
  ∧ buildPath log10_pos only_width = Raise NameError
  ∧ nan_filter [0.5; 1.5]%float [1.5; 2.5]%float [1; 1]%float
    = Ok ([0.5; 1.5]%float, [1.5; 2.5]%float, [1; 1]%float)
  ∧ buildPath log10_pos nan_top
    = Ok (Some [Line 2 1 2 2; Line 0.5 1 1.5 1]%float)
  ∧ buildPath log10_pos nan_width = Raise IndexError.
Proof.
  split; [|repeat split; vm_compute; reflexivity].
  intros o x y Hx Hy Hh Ht Hb Hw.
  unfold buildPath, drawStrokes. rewrite Hx, Hy, Hh, Ht, Hb, Hw. simpl.
  destruct (horizontalPass_unbound_rx o x y) as [e ->]. by exists e.
Qed.

(** ** drawPath twice *)

Lemma drawPath_Ok (self self' : ErrorBarItem) :
  drawPath log10_pos self = Ok self' →
  opts self' = opts self
  ∧ (buildPath log10_pos (opts self) = Ok None ∧ self' = self
     ∨ ∃ p, buildPath log10_pos (opts self) = Ok (Some p) ∧ path self' = Some p).
Proof.
  unfold drawPath. intros H. bind_inv H. destruct v as [p|].
  - inversion H; subst; simpl. split; [done|]. right. by exists p.
  - inversion H; subst. split; [done|]. by left.
Qed.

Lemma buildPath_None (o : Opts.t) :
  buildPath log10_pos o = Ok None → Opts.x o = None ∨ Opts.y o = None.
Proof.
  unfold buildPath, drawStrokes.
  destruct (Opts.x o) as [x|]; [|by left]. destruct (Opts.y o) as [y|]; [|by right].
  intros H. bind_inv H. destruct v as [[v h]|]; [done|].
  bind_inv E. destruct v as [v rx]. bind_inv E. done.
Qed.

(** C7: a second call of [drawPath] right after a first one succeeds and
    stores the same path, over the same options; and what the method does
    is a function of the option set alone: on any item with these options
    it returns too, with the same path whenever [x] and [y] are present
    (without them it leaves the path it finds). *)
Theorem drawPath_idempotent (self self1 : ErrorBarItem) :
  drawPath log10_pos self = Ok self1 →
  (∃ self2, drawPath log10_pos self1 = Ok self2
            ∧ path self2 = path self1 ∧ opts self2 = opts self1)
  ∧ (∀ other, opts other = opts self →
       ∃ other1, drawPath log10_pos other = Ok other1
               ∧ (path other = path self → path other1 = path self1)
               ∧ (is_Some (Opts.x (opts self)) → is_Some (Opts.y (opts self)) →
                  path other1 = path self1)).
Proof.
  intros H. destruct (drawPath_Ok _ _ H) as [Ho [[Hb ->] | (p & Hb & Hp)]].
  - split.
    + exists self. by rewrite H.
    + intros other Eo. exists other. unfold drawPath. rewrite Eo, Hb.
      split; [done|]. split; [done|].
      intros [x Hx] [y Hy].
      destruct (buildPath_None _ Hb) as [E | E]; congruence.
  - split.
    + unfold drawPath. rewrite Ho, Hb. simpl. eexists. split; [done|].
      simpl. by rewrite Hp.
    + intros other Eo. unfold drawPath. rewrite Eo, Hb. simpl.
      eexists. split; [done|]. simpl. by rewrite Hp.
Qed.

(** ** getDrawValue *)

Lemma zero_spec_float : Prim2SF 0%float = S754_zero false.
Proof. reflexivity. Qed.

(** A zero of either sign is not NaN and not below zero. *)
Lemma float_zero_cases (v : float) :
  PrimFloat.eqb v 0%float = true →
  PrimFloat.is_nan v = false ∧ PrimFloat.ltb v 0%float = false.
Proof.
  unfold PrimFloat.is_nan.
  rewrite !FloatAxioms.eqb_spec, FloatAxioms.ltb_spec, zero_spec_float.
  destruct (Prim2SF v) as [s|s| |s m e]; try destruct s; cbn; done.
Qed.

(** A value above zero is not NaN, not below zero and not zero. *)
Lemma float_positive_cases (v : float) :
  PrimFloat.ltb 0%float v = true →
  PrimFloat.is_nan v = false ∧ PrimFloat.ltb v 0%float = false
  ∧ PrimFloat.eqb v 0%float = false.
Proof.
  unfold PrimFloat.is_nan.
  rewrite !FloatAxioms.eqb_spec, !FloatAxioms.ltb_spec, zero_spec_float.
  destruct (Prim2SF v) as [s|s| |s m e]; try destruct s; cbn; try done.
  unfold SFeqb, SFcompare; cbn. rewrite Z.compare_refl.
  change (PosDef.Pos.compare_cont Eq m m) with (Pos.compare m m).
  by rewrite Pos.compare_refl.
Qed.

(** With both error modes on [ignore], [np.log10] returns on every value. *)
Lemma log10_ignore (v : float) :
  ∃ r, log10 log10_pos {| invalid := ignore; divide := ignore |} v = Ok r
     ∧ (PrimFloat.is_nan v = true ∨ PrimFloat.ltb v 0%float = true →
        PrimFloat.is_nan r = true)
     ∧ (PrimFloat.eqb v 0%float = true → r = PrimFloat.neg_infinity)
     ∧ (PrimFloat.ltb 0%float v = true → r = log10_pos v).
Proof.
  unfold log10.
  destruct (PrimFloat.is_nan v) eqn:En; [|destruct (PrimFloat.ltb v 0) eqn:El;
    [|destruct (PrimFloat.eqb v 0) eqn:Ee]]; simpl; eexists; (split; [done|]).
  - split; [done|]. split.
    + intros [Hn _]%float_zero_cases. congruence.
    + intros (Hn & _)%float_positive_cases. congruence.
  - split; [done|]. split.
    + intros [_ Hl]%float_zero_cases. congruence.
    + intros (_ & Hl & _)%float_positive_cases. congruence.
  - split; [by intros [|]|]. split; [done|].
    intros (_ & _ & He)%float_positive_cases. congruence.
  - split; [by intros [|]|]. split; done.
Qed.

Lemma np_log10_ignore (data : list float) :
  ∃ out, np_log10 log10_pos {| invalid := ignore; divide := ignore |} data = Ok out
       ∧ length out = length data
       ∧ ∀ i v, data !! i = Some v →
           ∃ r, out !! i = Some r
              ∧ (PrimFloat.is_nan v = true ∨ PrimFloat.ltb v 0%float = true →
                 PrimFloat.is_nan r = true)
              ∧ (PrimFloat.eqb v 0%float = true → r = PrimFloat.neg_infinity)
              ∧ (PrimFloat.ltb 0%float v = true → r = log10_pos v).
Proof.
  unfold np_log10. induction data as [|v data (out & E & L & IH)]; simpl.
  - exists []. repeat split. intros i v H. by destruct i.
  - destruct (log10_ignore v) as (r & Er & Hr). rewrite Er, E. simpl.
    exists (r :: out). split; [done|]. split; [simpl; by rewrite L|].
    intros [|i] w H; simpl in *.
    + inversion H; subst. by exists r.
    + by apply IH.
Qed.

(** C5: the transform applies to the values of an axis exactly when the
    log flag of that axis is set; a value passes through unchanged when it
    is not; when it is, the call returns (it never raises), with NaN for a
    NaN or negative value, minus infinity for zero, and the logarithm for a
    positive value. *)
Theorem getDrawValue_log (o : Opts.t) (data : list float) (horizontal : bool) :
  (axis_log o horizontal = false →
   getDrawValue log10_pos o data horizontal = Ok data)
  ∧ (axis_log o horizontal = true →
     ∃ out, getDrawValue log10_pos o data horizontal = Ok out
          ∧ length out = length data
          ∧ ∀ i v, data !! i = Some v →
              ∃ r, out !! i = Some r
                 ∧ (PrimFloat.is_nan v = true ∨ PrimFloat.ltb v 0%float = true →
                    PrimFloat.is_nan r = true)
                 ∧ (PrimFloat.eqb v 0%float = true → r = PrimFloat.neg_infinity)
                 ∧ (PrimFloat.ltb 0%float v = true → r = log10_pos v)).
Proof.
  unfold getDrawValue, axis_log.
  destruct horizontal, (Opts.logMode o) as [[|] [|]]; simpl;
    split; intros H; try done; apply np_log10_ignore.
Qed.

(** ** The vertical pass *)

Lemma operand_at_halve (h : operand) (i : nat) (w : float) :
  operand_at h i = Some w →
  operand_at (halve h) i = Some (PrimFloat.div w 2%float).
Proof.
  destruct h as [v|a]; simpl.
  - by intros [= ->].
  - intros H. by rewrite list_lookup_fmap, H.
Qed.

Lemma fits_halve (n : nat) (h : operand) : fits n h → fits n (halve h).
Proof. destruct h; simpl; [done|]. by rewrite length_fmap. Qed.

(** What a successful vertical pass went through. *)
Lemma verticalPass_Ok (o : Opts.t) (x y : list float) (s : strokes) (rx' : list float) :
  verticalPass log10_pos o x y = Ok (s, rx') →
  ∃ y1 y2 rx ry1 ry2 fy1 fy2,
    verticalEnds y (Opts.height o) (Opts.top o) (Opts.bottom o) = Ok (y1, y2)
    ∧ getDrawValue log10_pos o x true = Ok rx
    ∧ getDrawValue log10_pos o y1 false = Ok ry1
    ∧ getDrawValue log10_pos o y2 false = Ok ry2
    ∧ nan_filter rx ry1 ry2 = Ok (rx', fy1, fy2)
    ∧ draw_lines (length rx') rx' fy1 rx' fy2 = Ok (bars s)
    ∧ (Opts.beam o = None → caps_far s = [] ∧ caps_near s = [])
    ∧ (∀ b, Opts.beam o = Some b → gt_zero b = Ok false →
         caps_far s = [] ∧ caps_near s = [])
    ∧ (Opts.height o = None → Opts.top o = None → caps_far s = [])
    ∧ (Opts.height o = None → Opts.bottom o = None → caps_near s = []).
Proof.
  unfold verticalPass. intros H.
  bind_inv H. destruct v as [y1 y2].
  bind_inv H. bind_inv H. bind_inv H. bind_inv H. destruct v2 as [[fx fy1] fy2].
  bind_inv H.
  exists y1, y2, v, v0, v1, fy1, fy2.
  destruct (Opts.beam o) as [beam|] eqn:Eb.
  - bind_inv H. destruct v3.
    + bind_inv H. bind_inv H. bind_inv H. bind_inv H.
      inversion H; subst; clear H. simpl.
      repeat split; try done.
      * congruence.
      * congruence.
      * intros Hh Ht. rewrite Hh, Ht in E8. simpl in E8. by inversion E8.
      * intros Hh Hbt. rewrite Hh, Hbt in E9. simpl in E9. by inversion E9.
    + inversion H; subst; clear H. simpl. repeat split; done.
  - inversion H; subst; clear H. simpl. repeat split; done.
Qed.

(** A successful vertical pass draws at most one cap per kept point at
    each end. *)
Lemma verticalPass_caps_length (o : Opts.t) (x y : list float) (s : strokes)
    (rx' : list float) :
  verticalPass log10_pos o x y = Ok (s, rx') →
  length (caps_far s) ≤ length rx' ∧ length (caps_near s) ≤ length rx'.
Proof.
  unfold verticalPass. intros H.
  bind_inv H. destruct v as [y1 y2].
  bind_inv H. bind_inv H. bind_inv H. bind_inv H. destruct v2 as [[fx fy1] fy2].
  bind_inv H.
  destruct (Opts.beam o) as [beam|].
  - bind_inv H. destruct v3.
    + bind_inv H. bind_inv H. bind_inv H. bind_inv H.
      inversion H; subst; clear H. simpl. split.
      * destruct (_ || _) in E8.
        -- apply draw_lines_length in E8. lia.
        -- inversion E8. simpl. lia.
      * destruct (_ || _) in E9.
        -- apply draw_lines_length in E9. lia.
        -- inversion E9. simpl. lia.
    + inversion H; subst; clear H. simpl. lia.
  - inversion H; subst; clear H. simpl. lia.
Qed.

(** C4: in the vertical pass every index contributes [point_bar]: nothing
    when [rx], [ry1] or [ry2] is NaN there, one segment from
    [(rx, ry1)] to [(rx, ry2)] otherwise, and the caps, when drawn, are at
    most one per kept point at each end; on arrays of one length, without
    beam, the pass returns exactly these bars; and in scenario C
    ([x = [1]], [y = [0]], [height = [2]], logarithmic y) it draws nothing. *)
Theorem vertical_pass_drops_nan_points
    (o : Opts.t) (x y y1 y2 rx ry1 ry2 : list float) :
  verticalEnds y (Opts.height o) (Opts.top o) (Opts.bottom o) = Ok (y1, y2) →
  getDrawValue log10_pos o x true = Ok rx →
  getDrawValue log10_pos o y1 false = Ok ry1 →
  getDrawValue log10_pos o y2 false = Ok ry2 →
  (∀ s rx', verticalPass log10_pos o x y = Ok (s, rx') →
     bars s = spec_vertical_bars rx ry1 ry2
     ∧ rx' = select (keep_mask rx ry1 ry2) rx
     ∧ length (caps_far s) ≤ length rx'
     ∧ length (caps_near s) ≤ length rx')
  ∧ (length ry1 = length rx → length ry2 = length rx → Opts.beam o = None →
     ∃ rx', verticalPass log10_pos o x y
            = Ok (mkStrokes (spec_vertical_bars rx ry1 ry2) [] [], rx'))
  ∧ (∀ a b c, PrimFloat.is_nan a || PrimFloat.is_nan b || PrimFloat.is_nan c = true →
       point_bar a b c = [])
  ∧ (∀ a b c, PrimFloat.is_nan a || PrimFloat.is_nan b || PrimFloat.is_nan c = false →
       point_bar a b c = [Line a b a c])
  ∧ verticalPass log10_pos scenario_C [1%float] [0%float]
    = Ok (mkStrokes [] [] [], []).
Proof.
  intros Hends Hx H1 H2.
  assert (∀ fx fy1 fy2, nan_filter rx ry1 ry2 = Ok (fx, fy1, fy2) →
            draw_lines (length fx) fx fy1 fx fy2
            = Ok (spec_vertical_bars rx ry1 ry2)) as Hbars.
  { intros fx fy1 fy2 Hf.
    destruct (nan_filter_shape _ _ _ _ _ _ Hf) as [L1 L2].
    rewrite nan_filter_same_length in Hf by done. inversion Hf; subst.
    rewrite draw_lines_full by (by apply select_length_same).
    by rewrite lines_vertical_bars. }
  split; [|split; [|split; [|split]]].
  - intros s rx' H.
    pose proof (verticalPass_caps_length _ _ _ _ _ H) as [Cf Cn].
    apply verticalPass_Ok in H
      as (y1' & y2' & rx0 & ry1' & ry2' & fy1 & fy2 & E & Ex & E1 & E2 & Ef & Ed & _).
    rewrite Hends in E. inversion E; subst y1' y2'.
    rewrite Hx in Ex. rewrite H1 in E1. rewrite H2 in E2.
    inversion Ex; inversion E1; inversion E2; subst.
    split; [apply Hbars in Ef; congruence|]. split; [|done].
    destruct (nan_filter_shape _ _ _ _ _ _ Ef) as [L1 L2].
    rewrite nan_filter_same_length in Ef by done. by inversion Ef.
  - intros L1 L2 Hb. unfold verticalPass.
    rewrite Hends. simpl. rewrite Hx. simpl. rewrite H1. simpl. rewrite H2. simpl.
    pose proof (nan_filter_same_length rx ry1 ry2 L1 L2) as Hf.
    rewrite Hf. simpl. rewrite (Hbars _ _ _ Hf). simpl. rewrite Hb.
    by eexists.
  - intros a b c H. unfold point_bar. by rewrite H.
  - intros a b c H. unfold point_bar. by rewrite H.
  - vm_compute. reflexivity.
Qed.

(** ** Beam caps *)

Lemma horizontalPass_caps (o : Opts.t) (x y : list float) (rx : option (list float))
    (s : strokes) :
  horizontalPass log10_pos o x y rx = Ok s →
  (Opts.beam o = None → caps_far s = [] ∧ caps_near s = [])
  ∧ (∀ b, Opts.beam o = Some b → gt_zero b = Ok false →
       caps_far s = [] ∧ caps_near s = [])
  ∧ (Opts.width o = None → Opts.right o = None → caps_far s = [])
  ∧ (Opts.width o = None → Opts.left o = None → caps_near s = []).
Proof.
  unfold horizontalPass. intros H.
  bind_inv H. destruct v as [x1 x2].
  bind_inv H. bind_inv H. bind_inv H. bind_inv H. destruct v2 as [[fx1 fx2] fy].
  bind_inv H. bind_inv H.
  destruct (Opts.beam o) as [beam|] eqn:Eb.
  - bind_inv H. destruct v4.
    + bind_inv H. bind_inv H. bind_inv H. bind_inv H.
      inversion H; subst; clear H. simpl.
      repeat split; try done.
      * congruence.
      * congruence.
      * intros Hw Hr. rewrite Hw, Hr in E9. simpl in E9. by inversion E9.
      * intros Hw Hl. rewrite Hw, Hl in E10. simpl in E10. by inversion E10.
    + inversion H; subst; clear H. simpl. repeat split; done.
  - inversion H; subst; clear H. simpl. repeat split; done.
Qed.

Lemma drawStrokes_Ok (o : Opts.t) (v h : strokes) :
  drawStrokes log10_pos o = Ok (Some (v, h)) →
  ∃ x y,
    Opts.x o = Some x ∧ Opts.y o = Some y
    ∧ (v = mkStrokes [] [] [] ∨ ∃ rx, verticalPass log10_pos o x y = Ok (v, rx))
    ∧ (h = mkStrokes [] [] [] ∨ ∃ rx, horizontalPass log10_pos o x y rx = Ok h).
Proof.
  unfold drawStrokes. intros H.
  destruct (Opts.x o) as [x|]; [|done]. destruct (Opts.y o) as [y|]; [|done].
  exists x, y. split; [done|]. split; [done|].
  bind_inv H. destruct v0 as [v' rx]. bind_inv H. inversion H; subst; clear H.
  split.
  - destruct (_ || _) in E.
    + bind_inv E. destruct v0 as [s rx']. inversion E; subst. right. by exists rx'.
    + inversion E; subst. by left.
  - destruct (_ || _) in E0.
    + right. by exists rx.
    + inversion E0; subst. by left.
Qed.

(** C6: caps need a beam above zero. When [beam] is [None], or when
    [beam > 0] is false (a beam of 0 is such a beam), neither pass draws a
    cap, whatever the other options are; and in the vertical pass the caps
    at [y2] need [height] or [top], the caps at [y1] need [height] or
    [bottom]. *)
Theorem caps_need_beam (o : Opts.t) (v h : strokes) :
  drawStrokes log10_pos o = Ok (Some (v, h)) →
  (Opts.beam o = None
   ∨ (∃ b, Opts.beam o = Some b ∧ gt_zero b = Ok false) →
   caps_far v = [] ∧ caps_near v = [] ∧ caps_far h = [] ∧ caps_near h = []
   ∧ issued v ++ issued h = bars v ++ bars h)
  ∧ gt_zero (Single 0%float) = Ok false
  ∧ (Opts.height o = None → Opts.top o = None → caps_far v = [])
  ∧ (Opts.height o = None → Opts.bottom o = None → caps_near v = []).
Proof.
  intros H.
  apply drawStrokes_Ok in H as (x & y & _ & _ & Hv & Hh).
  assert ((Opts.beam o = None
           ∨ (∃ b, Opts.beam o = Some b ∧ gt_zero b = Ok false) →
           caps_far v = [] ∧ caps_near v = [])
          ∧ (Opts.height o = None → Opts.top o = None → caps_far v = [])
          ∧ (Opts.height o = None → Opts.bottom o = None → caps_near v = []))
    as (Vb & Vt & Vbt).
  { destruct Hv as [-> | [rx Hv]]; [done|].
    apply verticalPass_Ok in Hv
      as (? & ? & ? & ? & ? & ? & ? & _ & _ & _ & _ & _ & _ & Hn & Hz & Ht & Hb).
    split; [|done]. intros [Hb0 | (b & Hb0 & Hg)]; eauto. }
  assert (Opts.beam o = None
          ∨ (∃ b, Opts.beam o = Some b ∧ gt_zero b = Ok false) →
          caps_far h = [] ∧ caps_near h = []) as Hb.
  { destruct Hh as [-> | [rx Hh]]; [done|].
    apply horizontalPass_caps in Hh as (Hn & Hz & _).
    intros [Hb0 | (b & Hb0 & Hg)]; eauto. }
  split; [|done].
  intros Hoff. destruct (Vb Hoff) as [V1 V2], (Hb Hoff) as [H1 H2].
  repeat split; try done.
  unfold issued. rewrite V1, V2, H1, H2. by rewrite !app_nil_r.
Qed.

(** ** The scenarios of the specification *)

(** Scenario A: two bars, then the caps at [y2], then the caps at [y1]. *)
Lemma scenario_A_path :
  buildPath log10_pos scenario_A
  = Ok (Some [Line 1 9 1 11; Line 2 19 2 21;
              Line 0.75 11 1.25 11; Line 1.75 21 2.25 21;
              Line 0.75 9 1.25 9; Line 1.75 19 2.25 19]%float).
Proof. vm_compute. reflexivity. Qed.

(** Scenario B: [height] replaces [top] and [bottom]. *)
Lemma scenario_B_path :
  buildPath log10_pos scenario_B
  = Ok (Some [Line 1 8 1 12; Line 2 18 2 22;
              Line 0.75 12 1.25 12; Line 1.75 22 2.25 22;
              Line 0.75 8 1.25 8; Line 1.75 18 2.25 18]%float).
Proof. vm_compute. reflexivity. Qed.

(** Scenario C: [y1 = -1] has no logarithm, so the point has no bar,
    whatever the logarithm of [y2 = 1] is. *)
Lemma scenario_C_path : buildPath log10_pos scenario_C = Ok (Some []).
Proof. vm_compute. reflexivity. Qed.

(** Scenario D: nothing reaches [self.path = p]. *)
Lemma scenario_D_path : buildPath log10_pos Opts.default = Ok None.
Proof. reflexivity. Qed.

End Drawing.

(** * Further properties of the code *)

Section Coverage.

Variable log10_pos : float → float.
Variable QRectF : Type.
Variable QPainterPath_boundingRect : QPainterPath → QRectF.
Variable QPen : Type.
Variable mkPen : Pen → QPen.
Variable foreground : Pen.

(** ** Helpers *)

Lemma getDrawValue_total (o : Opts.t) (data : list float) (horizontal : bool) :
  ∃ out, getDrawValue log10_pos o data horizontal = Ok out
       ∧ length out = length data.
Proof.
  unfold getDrawValue. destruct (_ || _).
  - destruct (np_log10_ignore log10_pos data) as (out & E & L & _). by exists out.
  - by exists data.
Qed.

Lemma getDrawValue_linear (o : Opts.t) (data : list float) (horizontal : bool) :
  Opts.logMode o = (false, false) →
  getDrawValue log10_pos o data horizontal = Ok data.
Proof. unfold getDrawValue. intros ->. by destruct horizontal. Qed.

Lemma np_arith_fits_opt (f : float → float → float) (a : list float)
    (v : option operand) :
  fits_opt (length a) v →
  ∃ r, match v with None => Ok a | Some v => np_arith f a v end = Ok r
     ∧ length r = length a
     ∧ (v = None → r = a)
     ∧ (∀ w, v = Some w → ∀ i u z, a !! i = Some u → operand_at w i = Some z →
          r !! i = Some (f u z)).
Proof.
  destruct v as [v|]; simpl; intros H.
  - destruct (np_arith_fits f a v H) as (r & E & L & P).
    exists r. repeat split; try done. intros w [= <-]. apply P.
  - exists a. repeat split; done.
Qed.

Lemma broadcast_mismatch {A B C} (f : A → B → C) (a : list A) (b : list B) :
  length a ≠ length b → length a ≠ 1 → length b ≠ 1 →
  broadcast f a b = Raise ValueError.
Proof.
  intros H Ha Hb. unfold broadcast.
  destruct a as [|u [|u' a]], b as [|v [|v' b]]; simpl in *; try done.
  all: by rewrite decide_False.
Qed.

Lemma draw_lines_take (n : nat) (ax ay bx by_ : list float) :
  length ay = length ax → length bx = length ax → length by_ = length ax →
  n ≤ length ax →
  draw_lines n ax ay bx by_ = Ok (take n (lines ax ay bx by_)).
Proof.
  revert ax ay bx by_.
  induction n as [|n IH]; intros ax ay bx by_ Hy Hx Hb Hn; [done|].
  destruct ax as [|a ax], ay as [|b ay], bx as [|c bx], by_ as [|d by_];
    simpl in *; try done; try lia.
  rewrite draw_lines_cons, IH by lia. done.
Qed.

Lemma draw_lines_short (n : nat) (ax ay bx by_ : list float) :
  length ay = length ax → length bx = length ax → length by_ = length ax →
  length ax < n →
  draw_lines n ax ay bx by_ = Raise IndexError.
Proof.
  revert n ay bx by_.
  induction ax as [|a ax IH]; intros [|n] [|b ay] [|c bx] [|d by_];
    simpl; try done; try lia.
  intros Hy Hx Hb Hn. rewrite draw_lines_cons, IH by lia. reflexivity.
Qed.

Lemma lines_length (ax ay bx by_ : list float) :
  length ay = length ax → length bx = length ax → length by_ = length ax →
  length (lines ax ay bx by_) = length ax.
Proof.
  revert ay bx by_.
  induction ax as [|a ax IH]; intros [|b ay] [|c bx] [|d by_]; simpl; try done.
  intros. f_equal. apply IH; lia.
Qed.

Lemma lines_horizontal_bars (a b c : list float) :
  length b = length a → length c = length a →
  lines (select (keep_mask a b c) a) (select (keep_mask a b c) c)
        (select (keep_mask a b c) b) (select (keep_mask a b c) c)
  = spec_horizontal_bars a b c.
Proof.
  revert b c.
  induction a as [|u a IH]; intros [|v b] [|w c]; simpl; try done.
  intros [= Hb] [= Hc]. unfold keep_mask in *. csimpl. unfold point_hbar.
  destruct (PrimFloat.is_nan u), (PrimFloat.is_nan v), (PrimFloat.is_nan w);
    simpl; rewrite IH by done; done.
Qed.

(** The caps drawn around bars, as images of the bars. *)
Lemma lines_cap_far (b : float) (x y1 y2 : list float) :
  length y1 = length x → length y2 = length x →
  lines ((λ u, PrimFloat.sub u (PrimFloat.div b 2%float)) <$> x) y2
        ((λ u, PrimFloat.add u (PrimFloat.div b 2%float)) <$> x) y2
  = cap_far b <$> lines x y1 x y2.
Proof.
  revert y1 y2. induction x as [|u x IH]; intros [|v y1] [|w y2]; csimpl; try done.
  intros [= H1] [= H2]. by rewrite (IH y1 y2).
Qed.

Lemma lines_cap_near (b : float) (x y1 y2 : list float) :
  length y1 = length x → length y2 = length x →
  lines ((λ u, PrimFloat.sub u (PrimFloat.div b 2%float)) <$> x) y1
        ((λ u, PrimFloat.add u (PrimFloat.div b 2%float)) <$> x) y1
  = cap_near b <$> lines x y1 x y2.
Proof.
  revert y1 y2. induction x as [|u x IH]; intros [|v y1] [|w y2]; csimpl; try done.
  intros [= H1] [= H2]. by rewrite (IH y1 y2).
Qed.

Lemma lines_hcap_far (b : float) (x1 x2 y : list float) :
  length x2 = length x1 → length y = length x1 →
  lines x2 ((λ u, PrimFloat.sub u (PrimFloat.div b 2%float)) <$> y)
        x2 ((λ u, PrimFloat.add u (PrimFloat.div b 2%float)) <$> y)
  = hcap_far b <$> lines x1 y x2 y.
Proof.
  revert x2 y. induction x1 as [|u x1 IH]; intros [|v x2] [|w y]; csimpl; try done.
  intros [= H1] [= H2]. by rewrite (IH x2 y).
Qed.

Lemma lines_hcap_near (b : float) (x1 x2 y : list float) :
  length x2 = length x1 → length y = length x1 →
  lines x1 ((λ u, PrimFloat.sub u (PrimFloat.div b 2%float)) <$> y)
        x1 ((λ u, PrimFloat.add u (PrimFloat.div b 2%float)) <$> y)
  = hcap_near b <$> lines x1 y x2 y.
Proof.
  revert x2 y. induction x1 as [|u x1 IH]; intros [|v x2] [|w y]; csimpl; try done.
  intros [= H1] [= H2]. by rewrite (IH x2 y).
Qed.

Lemma nan_filter_Ok (a b c a' b' c' : list float) :
  nan_filter a b c = Ok (a', b', c') →
  length b = length a ∧ length c = length a
  ∧ a' = select (keep_mask a b c) a
  ∧ b' = select (keep_mask a b c) b
  ∧ c' = select (keep_mask a b c) c
  ∧ length b' = length a' ∧ length c' = length a'.
Proof.
  intros H. destruct (nan_filter_shape _ _ _ _ _ _ H) as [L1 L2].
  rewrite nan_filter_same_length in H by done. inversion H; subst.
  repeat split; try done; by apply select_length_same.
Qed.

(** ** setData and setLogMode, composed *)

(** X1: two calls of [setData] in a row leave the options one call with
    the merged arguments would leave (the later call wins where both name
    an option), the path unbuilt, and the three notifications sent twice;
    and [setData] on an item built without arguments gives the options of
    an item built with these arguments. *)
Theorem setData_twice (self : ErrorBarItem) (k1 k2 : Kwargs.t) :
  opts (setData (setData self k1) k2) = opts (setData self (kwargs_then k1 k2))
  ∧ path (setData (setData self k1) k2) = None
  ∧ events (setData (setData self k1) k2)
    = events self
      ++ [Update; PrepareGeometryChange; InformViewBoundsChanged]
      ++ [Update; PrepareGeometryChange; InformViewBoundsChanged]
  ∧ opts (setData (init Kwargs.empty) k1) = opts (init k1).
Proof.
  split; [|split; [done|split]].
  - destruct k1 as [a1 b1 c1 d1 e1 f1 g1 h1 i1 j1 l1],
             k2 as [a2 b2 c2 d2 e2 f2 g2 h2 i2 j2 l2]; simpl.
    unfold dict_update; simpl.
    destruct a2, b2, c2, d2, e2, f2, g2, h2, i2, j2, l2; reflexivity.
  - simpl. by rewrite <- app_assoc.
  - simpl. by rewrite dict_update_empty.
Qed.

(** X2: [setLogMode] touches nothing but the log-mode pair (putting the
    old pair back gives the old options), leaves the pair it was given, so
    that horizontal data follow [xMode] and vertical data [yMode]; and a
    second identical call changes nothing at all. *)
Theorem setLogMode_twice (self : ErrorBarItem) (a b : bool) :
  Opts.with_logMode (opts (setLogMode self a b)) (Opts.logMode (opts self))
  = opts self
  ∧ Opts.logMode (opts (setLogMode self a b)) = (a, b)
  ∧ axis_log (opts (setLogMode self a b)) true = a
  ∧ axis_log (opts (setLogMode self a b)) false = b
  ∧ setLogMode (setLogMode self a b) a b = setLogMode self a b.
Proof.
  assert (Opts.logMode (opts (setLogMode self a b)) = (a, b)) as Hm.
  { unfold setLogMode. by case_decide. }
  split; [|split; [done|split; [|split]]].
  - unfold setLogMode. case_decide; simpl; by destruct (opts self).
  - unfold axis_log. by rewrite Hm.
  - unfold axis_log. by rewrite Hm.
  - unfold setLogMode at 1. by rewrite decide_True.
Qed.

(** ** The cached path *)

Lemma coherent_drawPath (self self' : ErrorBarItem) :
  coherent log10_pos self → drawPath log10_pos self = Ok self' →
  coherent log10_pos self'.
Proof.
  intros Hc H. destruct (drawPath_Ok _ _ _ H) as [Ho [[_ ->] | (p & Hb & Hp)]];
    [done|].
  unfold coherent. by rewrite Hp, Ho.
Qed.

Lemma coherent_lazy (self self' : ErrorBarItem) :
  coherent log10_pos self →
  match path self with
  | None => drawPath log10_pos self
  | Some _ => Ok self
  end = Ok self' →
  coherent log10_pos self' ∧ opts self' = opts self
  ∧ (path self' = None → Opts.x (opts self) = None ∨ Opts.y (opts self) = None).
Proof.
  intros Hc H. destruct (path self) as [p|] eqn:Ep.
  - inversion H; subst. split; [done|]. split; [done|]. congruence.
  - split; [by eapply coherent_drawPath|].
    destruct (drawPath_Ok _ _ _ H) as [Ho [[Hb ->] | (p & Hb & Hp)]].
    + split; [done|]. intros _. by eapply buildPath_None.
    + split; [done|]. congruence.
Qed.

Lemma coherent_after (self : ErrorBarItem) (c : call) :
  coherent log10_pos self →
  coherent log10_pos
    (after log10_pos QRectF QPainterPath_boundingRect QPen mkPen foreground self c).
Proof.
  intros Hc. destruct c; simpl; try done.
  - unfold setLogMode. by case_decide.
  - destruct (drawPath log10_pos self) eqn:E; [|done].
    by eapply coherent_drawPath.
  - unfold boundingRect.
    destruct (match path self with None => _ | Some _ => _ end) as [s|e] eqn:E;
      simpl; [|done].
    destruct (coherent_lazy _ _ Hc E) as (Hs & _).
    by destruct (path s).
  - unfold paint.
    destruct (match path self with None => _ | Some _ => _ end) as [s|e] eqn:E;
      simpl; [|done].
    by destruct (coherent_lazy _ _ Hc E) as (Hs & _).
Qed.

(** X3: after any sequence of calls on a fresh item, a cached path is the
    path of the options stored at that moment; so a rectangle returned by
    [boundingRect] is the rectangle of the path of the current options,
    never of older ones. *)
Theorem history_coherent (kw : Kwargs.t) (calls : list call) :
  coherent log10_pos
    (history log10_pos QRectF QPainterPath_boundingRect QPen mkPen foreground
       kw calls)
  ∧ ∀ r self',
      boundingRect log10_pos QRectF QPainterPath_boundingRect
        (history log10_pos QRectF QPainterPath_boundingRect QPen mkPen foreground
           kw calls)
      = Ok (r, self') →
      ∃ p, buildPath log10_pos
             (opts (history log10_pos QRectF QPainterPath_boundingRect QPen mkPen
                      foreground kw calls))
           = Ok (Some p)
         ∧ r = QPainterPath_boundingRect p
         ∧ path self' = Some p.
Proof.
  unfold history.
  assert (∀ s, coherent log10_pos s →
            coherent log10_pos
              (foldl (after log10_pos QRectF QPainterPath_boundingRect QPen mkPen
                        foreground) s calls)) as Hfold.
  { induction calls as [|c calls IH]; intros s Hs; simpl; [done|].
    apply IH. by apply coherent_after. }
  assert (coherent log10_pos (init kw)) as Hi by done.
  specialize (Hfold _ Hi).
  set (s := foldl _ (init kw) calls) in *. clearbody s.
  split; [done|]. intros r self' H. unfold boundingRect in H.
  bind_inv H. destruct (coherent_lazy _ _ Hfold E) as (Hc & Ho & _).
  unfold coherent in Hc. destruct (path v) as [p|] eqn:Ep; [|done].
  inversion H; subst. exists p. by rewrite <- Ho.
Qed.

(** X4: when [boundingRect] returns, asking again returns the same
    rectangle and leaves the item exactly as the first call left it: the
    path is built at most once, with at most one geometry-change
    notification, and the options are untouched; [paint] then strokes that
    stored path without rebuilding it. *)
Theorem boundingRect_idempotent (self self1 : ErrorBarItem) (r : QRectF) :
  boundingRect log10_pos QRectF QPainterPath_boundingRect self = Ok (r, self1) →
  boundingRect log10_pos QRectF QPainterPath_boundingRect self1 = Ok (r, self1)
  ∧ opts self1 = opts self
  ∧ (events self1 = events self
     ∨ (path self = None ∧ events self1 = events self ++ [PrepareGeometryChange]))
  ∧ ∀ q, ∃ pen, paint log10_pos QPen mkPen foreground self1 q
                = Ok (self1, q ++ [SetPen pen; DrawPath (path self1)]).
Proof.
  unfold boundingRect. intros H. bind_inv H.
  destruct (path v) as [p|] eqn:Ep; [|done]. inversion H; subst; clear H.
  rewrite Ep. simpl. rewrite Ep. split; [done|].
  assert (opts self1 = opts self
          ∧ (events self1 = events self
             ∨ (path self = None
                ∧ events self1 = events self ++ [PrepareGeometryChange])))
    as [Ho He].
  { destruct (path self) as [p0|] eqn:Ep0.
    - inversion E; subst. by split; [|left].
    - unfold drawPath in E. bind_inv E. destruct v as [p'|].
      + inversion E; subst. simpl. split; [done|]. by right.
      + inversion E; subst. by split; [|left]. }
  split; [done|]. split; [done|].
  intros q. unfold paint. rewrite Ep. simpl. rewrite Ep. by eexists.
Qed.

(** X5: the calls [paint] makes on the painter: the pen of the options, or
    the configured foreground when [pen] is [None], then [drawPath] with the
    item's path. With [x] or [y] absent and no path built, the path handed
    to the painter is [None]; when building the path raises, [paint]
    raises the same exception. *)
Theorem paint_calls (self : ErrorBarItem) (q : list (painter_call QPen)) :
  (∀ p, path self = Some p →
     paint log10_pos QPen mkPen foreground self q
     = Ok (self,
           q ++ [SetPen (mkPen (default foreground (Opts.pen (opts self))));
                 DrawPath (Some p)]))
  ∧ (path self = None →
     Opts.x (opts self) = None ∨ Opts.y (opts self) = None →
     paint log10_pos QPen mkPen foreground self q
     = Ok (self,
           q ++ [SetPen (mkPen (default foreground (Opts.pen (opts self))));
                 DrawPath None]))
  ∧ (∀ p, path self = None → buildPath log10_pos (opts self) = Ok (Some p) →
     paint log10_pos QPen mkPen foreground self q
     = Ok ({| opts := opts self; path := Some p;
              events := events self ++ [PrepareGeometryChange] |},
           q ++ [SetPen (mkPen (default foreground (Opts.pen (opts self))));
                 DrawPath (Some p)]))
  ∧ (∀ e, path self = None → buildPath log10_pos (opts self) = Raise e →
     paint log10_pos QPen mkPen foreground self q = Raise e).
Proof.
  split; [|split; [|split]].
  - intros p Hp. unfold paint. rewrite Hp. simpl. rewrite Hp.
    by destruct (Opts.pen (opts self)).
  - intros Hp Hxy. unfold paint, drawPath, buildPath.
    rewrite Hp, drawStrokes_without_xy by done. simpl. rewrite Hp.
    by destruct (Opts.pen (opts self)).
  - intros p Hp Hb. unfold paint, drawPath. rewrite Hp, Hb. simpl.
    by destruct (Opts.pen (opts self)).
  - intros e Hp Hb. unfold paint, drawPath. by rewrite Hp, Hb.
Qed.

(** ** Which exceptions drawPath raises *)

Lemma raises_only_bind {A B} (P : exn → Prop) (m : result A) (f : A → result B) :
  raises_only P m → (∀ a, m = Ok a → raises_only P (f a)) →
  raises_only P (m ≫= f).
Proof.
  intros Hm Hf e. destruct m as [a|e']; simpl.
  - by apply Hf.
  - intros [= ->]. by apply Hm.
Qed.

Lemma raises_only_Ok {A} (P : exn → Prop) (a : A) : raises_only P (Ok a).
Proof. by intros e. Qed.

Lemma raises_only_weaken {A} (P Q : exn → Prop) (m : result A) :
  (∀ e, P e → Q e) → raises_only P m → raises_only Q m.
Proof. intros H Hm e He. by apply H, Hm. Qed.

Lemma raises_only_for_each {A B} (P : exn → Prop) (body : A → result B) (l : list A) :
  (∀ a, raises_only P (body a)) → raises_only P (for_each body l).
Proof.
  intros Hb. induction l as [|a l IH]; simpl; [apply raises_only_Ok|].
  apply raises_only_bind; [done|]. intros b _.
  apply raises_only_bind; [done|]. intros bs _. apply raises_only_Ok.
Qed.

Lemma broadcast_raises {A B C} (f : A → B → C) (a : list A) (b : list B) :
  raises_only shape_error (broadcast f a b).
Proof.
  unfold broadcast. intros e.
  destruct a as [|u [|u' a]], b as [|v [|v' b]]; simpl; try done;
    try case_decide; try done; intros [= <-]; by left.
Qed.

Lemma np_arith_raises (f : float → float → float) (a : list float) (v : operand) :
  raises_only shape_error (np_arith f a v).
Proof. destruct v; simpl; [apply raises_only_Ok | apply broadcast_raises]. Qed.

Lemma getitem_raises {A} (a : list A) (i : nat) :
  raises_only shape_error (getitem a i).
Proof. unfold getitem. intros e. destruct (a !! i); [done|]. intros [= <-]. by right. Qed.

Lemma draw_lines_raises (n : nat) (ax ay bx by_ : list float) :
  raises_only shape_error (draw_lines n ax ay bx by_).
Proof.
  unfold draw_lines, for_range. apply raises_only_for_each. intros i.
  repeat (apply raises_only_bind; [apply getitem_raises|intros ? _]).
  apply raises_only_Ok.
Qed.

Lemma mask_index_raises {A} (a : list A) (mask : list bool) :
  raises_only shape_error (mask_index a mask).
Proof. unfold mask_index. intros e. case_decide; [done|]. intros [= <-]. by right. Qed.

Lemma nan_filter_raises (a b c : list float) :
  raises_only shape_error (nan_filter a b c).
Proof.
  unfold nan_filter, np_logical_or.
  repeat (apply raises_only_bind;
          [first [apply broadcast_raises | apply mask_index_raises]|intros ? _]).
  apply raises_only_Ok.
Qed.

Lemma getDrawValue_raises (P : exn → Prop) (o : Opts.t) (data : list float)
    (horizontal : bool) :
  raises_only P (getDrawValue log10_pos o data horizontal).
Proof.
  destruct (getDrawValue_total o data horizontal) as (out & -> & _).
  apply raises_only_Ok.
Qed.

Lemma gt_zero_raises (beam : operand) : raises_only shape_error (gt_zero beam).
Proof.
  intros e. destruct beam as [b|[|b [|b' l]]]; simpl; try done.
  intros [= <-]. by left.
Qed.

Lemma verticalEnds_raises (y : list float) (h t b : option operand) :
  raises_only shape_error (verticalEnds y h t b).
Proof.
  unfold verticalEnds, np_sub, np_add. destruct h.
  - repeat (apply raises_only_bind; [apply np_arith_raises|intros ? _]).
    apply raises_only_Ok.
  - apply raises_only_bind.
    { destruct b; [apply np_arith_raises | apply raises_only_Ok]. }
    intros ? _. apply raises_only_bind.
    { destruct t; [apply np_arith_raises | apply raises_only_Ok]. }
    intros ? _. apply raises_only_Ok.
Qed.

Lemma horizontalEnds_raises (x : list float) (w l r : option operand) :
  raises_only shape_error (horizontalEnds x w l r).
Proof.
  unfold horizontalEnds, np_sub, np_add. destruct w.
  - repeat (apply raises_only_bind; [apply np_arith_raises|intros ? _]).
    apply raises_only_Ok.
  - apply raises_only_bind.
    { destruct l; [apply np_arith_raises | apply raises_only_Ok]. }
    intros ? _. apply raises_only_bind.
    { destruct r; [apply np_arith_raises | apply raises_only_Ok]. }
    intros ? _. apply raises_only_Ok.
Qed.

Ltac raises_step :=
  first
    [ apply raises_only_Ok
    | apply getDrawValue_raises
    | apply verticalEnds_raises
    | apply horizontalEnds_raises
    | apply nan_filter_raises
    | apply draw_lines_raises
    | apply gt_zero_raises
    | apply np_arith_raises ].

Lemma verticalPass_raises (o : Opts.t) (x y : list float) :
  raises_only shape_error (verticalPass log10_pos o x y).
Proof.
  unfold verticalPass, np_sub, np_add.
  apply raises_only_bind; [raises_step|intros [y1 y2] _].
  do 3 (apply raises_only_bind; [raises_step|intros ? _]).
  apply raises_only_bind; [raises_step|intros [[fx fy1] fy2] _].
  apply raises_only_bind; [raises_step|intros stems _].
  destruct (Opts.beam o) as [beam|]; [|raises_step].
  apply raises_only_bind; [raises_step|intros [|] _]; [|raises_step].
  do 2 (apply raises_only_bind; [raises_step|intros ? _]).
  apply raises_only_bind; [destruct (_ || _); raises_step|intros ? _].
  apply raises_only_bind; [destruct (_ || _); raises_step|intros ? _].
  raises_step.
Qed.

Lemma horizontalPass_raises (o : Opts.t) (x y : list float)
    (rx : option (list float)) :
  raises_only (λ e, shape_error e ∨ (e = NameError ∧ rx = None))
    (horizontalPass log10_pos o x y rx).
Proof.
  unfold horizontalPass, np_sub, np_add.
  assert (∀ A (m : result A), raises_only shape_error m →
            raises_only (λ e, shape_error e ∨ (e = NameError ∧ rx = None)) m) as W.
  { intros A m. apply raises_only_weaken. by left. }
  apply raises_only_bind; [apply W; raises_step|intros [x1 x2] _].
  do 3 (apply raises_only_bind; [apply W; raises_step|intros ? _]).
  apply raises_only_bind; [apply W; raises_step|intros [[fx1 fx2] fy] _].
  apply raises_only_bind.
  { intros e. destruct rx; simpl; [done|]. intros [= <-]. by right. }
  intros n _.
  apply raises_only_bind; [apply W; raises_step|intros stems _].
  destruct (Opts.beam o) as [beam|]; [|raises_step].
  apply raises_only_bind; [apply W; raises_step|intros [|] _]; [|raises_step].
  do 2 (apply raises_only_bind; [apply W; raises_step|intros ? _]).
  apply raises_only_bind; [destruct (_ || _); apply W; raises_step|intros ? _].
  apply raises_only_bind; [destruct (_ || _); apply W; raises_step|intros ? _].
  raises_step.
Qed.

(** X6: on options of the documented types and under numpy's default
    floating-point error handling, [drawPath] raises nothing but
    [ValueError], [IndexError] and [NameError], whatever the data (the
    logarithm of a zero, negative or NaN value raises nothing); and it
    raises [NameError] only when none of [height], [top], [bottom] is set
    while one of [width], [right], [left] is. *)
Theorem buildPath_raises (o : Opts.t) (e : exn) :
  buildPath log10_pos o = Raise e →
  (e = ValueError ∨ e = IndexError ∨ e = NameError)
  ∧ (e = NameError →
     Opts.height o = None ∧ Opts.top o = None ∧ Opts.bottom o = None
     ∧ not_None (Opts.width o) || not_None (Opts.right o) || not_None (Opts.left o)
       = true).
Proof.
  unfold buildPath, drawStrokes.
  destruct (Opts.x o) as [x|]; [|done]. destruct (Opts.y o) as [y|]; [|done].
  destruct (not_None (Opts.height o) || not_None (Opts.top o)
            || not_None (Opts.bottom o)) eqn:Ev.
  - destruct (verticalPass log10_pos o x y) as [[s rx]|e'] eqn:Hv; simpl.
    + destruct (not_None (Opts.width o) || not_None (Opts.right o)
                || not_None (Opts.left o)); simpl; [|done].
      destruct (horizontalPass log10_pos o x y (Some rx)) as [h|e'] eqn:Hh;
        simpl; [done|].
      intros [= <-].
      destruct (horizontalPass_raises o x y (Some rx) _ Hh) as [[->| ->]|[_ ?]];
        try done; split; auto; done.
    + intros [= <-].
      destruct (verticalPass_raises o x y _ Hv) as [->| ->]; split; auto; done.
  - simpl.
    destruct (not_None (Opts.width o) || not_None (Opts.right o)
              || not_None (Opts.left o)) eqn:Eh; simpl; [|done].
    destruct (horizontalPass log10_pos o x y None) as [h|e'] eqn:Hh;
      simpl; [done|].
    intros [= <-].
    destruct (horizontalPass_raises o x y None _ Hh) as [[->| ->]|[-> _]];
      try (split; auto; done).
    split; [auto|]. intros _.
    destruct (Opts.height o), (Opts.top o), (Opts.bottom o); done.
Qed.

(** X7: an array [height] whose length is neither 1 nor the number of
    points (of which there is not exactly one) makes [drawPath] raise
    [ValueError]; the path stays unbuilt, and [boundingRect] and [paint]
    on such an item raise it too. *)
Theorem mismatched_height_raises (o : Opts.t) (x y h : list float) :
  Opts.x o = Some x → Opts.y o = Some y → Opts.height o = Some (NdArray h) →
  length h ≠ length y → length h ≠ 1 → length y ≠ 1 →
  buildPath log10_pos o = Raise ValueError
  ∧ ∀ self, opts self = o → path self = None →
      drawPath log10_pos self = Raise ValueError
      ∧ boundingRect log10_pos QRectF QPainterPath_boundingRect self
        = Raise ValueError
      ∧ ∀ q, paint log10_pos QPen mkPen foreground self q = Raise ValueError.
Proof.
  intros Hx Hy Hh L1 L2 L3.
  assert (buildPath log10_pos o = Raise ValueError) as Hb.
  { unfold buildPath, drawStrokes. rewrite Hx, Hy, Hh. simpl.
    unfold verticalPass. rewrite Hh. simpl. unfold np_sub. simpl.
    rewrite !broadcast_mismatch by (rewrite ?length_fmap; congruence).
    reflexivity. }
  split; [done|]. intros self Ho Hp.
  assert (drawPath log10_pos self = Raise ValueError) as Hd.
  { unfold drawPath. by rewrite Ho, Hb. }
  split; [done|]. split.
  - unfold boundingRect. by rewrite Hp, Hd.
  - intros q. unfold paint. by rewrite Hp, Hd.
Qed.

(** ** The ends of the bars *)

(** X8: without [height], the lower end of a vertical bar is [y - bottom],
    or the point itself when [bottom] is [None], and the upper end is
    [y + top], or the point itself when [top] is [None]; on magnitudes that
    fit the points this never raises and keeps the number of points. *)
Theorem vertical_ends_without_height (y : list float) (t b : option operand) :
  fits_opt (length y) t → fits_opt (length y) b →
  ∃ y1 y2,
    verticalEnds y None t b = Ok (y1, y2)
    ∧ length y1 = length y ∧ length y2 = length y
    ∧ (b = None → y1 = y) ∧ (t = None → y2 = y)
    ∧ (∀ w, b = Some w → ∀ i u z, y !! i = Some u → operand_at w i = Some z →
         y1 !! i = Some (PrimFloat.sub u z))
    ∧ (∀ w, t = Some w → ∀ i u z, y !! i = Some u → operand_at w i = Some z →
         y2 !! i = Some (PrimFloat.add u z)).
Proof.
  intros Ht Hb. unfold verticalEnds, np_sub, np_add.
  destruct (np_arith_fits_opt PrimFloat.sub y b Hb) as (y1 & E1 & L1 & N1 & P1).
  destruct (np_arith_fits_opt PrimFloat.add y t Ht) as (y2 & E2 & L2 & N2 & P2).
  exists y1, y2. rewrite E1. simpl. rewrite E2. simpl. repeat split; done.
Qed.

(** X9: the horizontal bars mirror the vertical ones. With [width] set the
    ends are [x - width/2] and [x + width/2] whatever [left] and [right]
    are, and replacing [left] and [right] changes nothing of what
    [drawPath] draws; without [width] the ends are [x - left] and
    [x + right], or the point itself where the magnitude is [None]. *)
Theorem width_overrides_left_right (x : list float) (l r : option operand) :
  (∀ w, fits (length x) w →
     ∃ x1 x2, horizontalEnds x (Some w) l r = Ok (x1, x2)
            ∧ length x1 = length x ∧ length x2 = length x
            ∧ ∀ i u z, x !! i = Some u → operand_at w i = Some z →
                x1 !! i = Some (PrimFloat.sub u (PrimFloat.div z 2%float))
                ∧ x2 !! i = Some (PrimFloat.add u (PrimFloat.div z 2%float)))
  ∧ (fits_opt (length x) l → fits_opt (length x) r →
     ∃ x1 x2, horizontalEnds x None l r = Ok (x1, x2)
            ∧ length x1 = length x ∧ length x2 = length x
            ∧ (l = None → x1 = x) ∧ (r = None → x2 = x)
            ∧ (∀ w, l = Some w → ∀ i u z, x !! i = Some u →
                 operand_at w i = Some z → x1 !! i = Some (PrimFloat.sub u z))
            ∧ (∀ w, r = Some w → ∀ i u z, x !! i = Some u →
                 operand_at w i = Some z → x2 !! i = Some (PrimFloat.add u z)))
  ∧ (∀ o w, Opts.width o = Some w →
       drawStrokes log10_pos (with_left_right o l r) = drawStrokes log10_pos o).
Proof.
  split; [|split].
  - intros w Hf. simpl. unfold np_sub, np_add.
    destruct (np_arith_fits PrimFloat.sub x (halve w)) as (x1 & E1 & L1 & P1);
      [by apply fits_halve|].
    destruct (np_arith_fits PrimFloat.add x (halve w)) as (x2 & E2 & L2 & P2);
      [by apply fits_halve|].
    rewrite E1, E2. simpl. exists x1, x2. repeat split; try done.
    + apply P1; [done|]. by apply operand_at_halve.
    + apply P2; [done|]. by apply operand_at_halve.
  - intros Hl Hr. unfold horizontalEnds, np_sub, np_add.
    destruct (np_arith_fits_opt PrimFloat.sub x l Hl) as (x1 & E1 & L1 & N1 & P1).
    destruct (np_arith_fits_opt PrimFloat.add x r Hr) as (x2 & E2 & L2 & N2 & P2).
    exists x1, x2. rewrite E1. simpl. rewrite E2. simpl. repeat split; done.
  - intros o w Hw. destruct o; simpl in *; subst.
    unfold drawStrokes, verticalPass, horizontalPass, getDrawValue; simpl.
    reflexivity.
Qed.

(** ** Caps follow bars *)

(** X10: in a vertical pass with a single-valued beam above zero, the caps
    are drawn one per bar, in the order of the bars: across the upper end
    when [height] or [top] is set, across the lower end when [height] or
    [bottom] is set, each reaching [beam/2] to either side of the bar. *)
Theorem vertical_caps_follow_bars (o : Opts.t) (x y : list float) (s : strokes)
    (rx' : list float) (b : float) :
  verticalPass log10_pos o x y = Ok (s, rx') →
  Opts.beam o = Some (Single b) → PrimFloat.ltb 0%float b = true →
  caps_far s
  = (if not_None (Opts.height o) || not_None (Opts.top o)
     then cap_far b <$> bars s else [])
  ∧ caps_near s
    = (if not_None (Opts.height o) || not_None (Opts.bottom o)
       then cap_near b <$> bars s else []).
Proof.
  unfold verticalPass. intros H Hb Hpos.
  bind_inv H. destruct v as [y1 y2].
  bind_inv H. bind_inv H. bind_inv H. bind_inv H. destruct v2 as [[fx fy1] fy2].
  bind_inv H. rewrite Hb in H. simpl in H. rewrite Hpos in H. simpl in H.
  bind_inv H. bind_inv H. inversion H; subst; clear H. simpl.
  apply nan_filter_Ok in E3 as (_ & _ & _ & _ & _ & L1 & L2).
  rewrite draw_lines_full in E4 by done. inversion E4; subst; clear E4.
  set (x1 := (λ u, PrimFloat.sub u (PrimFloat.div b 2%float)) <$> rx') in *.
  set (x2 := (λ u, PrimFloat.add u (PrimFloat.div b 2%float)) <$> rx') in *.
  assert (length rx' = length x1) as Lx by (unfold x1; by rewrite length_fmap).
  assert (length x2 = length x1) as Lx2 by (unfold x1, x2; by rewrite !length_fmap).
  split.
  - revert E5. destruct (not_None (Opts.height o) || not_None (Opts.top o));
      [|by intros [= <-]]. intros E5.
    rewrite Lx, draw_lines_full in E5 by congruence.
    inversion E5. unfold x1, x2. by apply lines_cap_far.
  - revert E6. destruct (not_None (Opts.height o) || not_None (Opts.bottom o));
      [|by intros [= <-]]. intros E6.
    rewrite Lx, draw_lines_full in E6 by congruence.
    inversion E6. unfold x1, x2. by apply lines_cap_near.
Qed.

(** X11: the same in the horizontal pass: across the right end when
    [width] or [right] is set, across the left end when [width] or [left]
    is set, each reaching [beam/2] above and below the bar. *)
Theorem horizontal_caps_follow_bars (o : Opts.t) (x y : list float)
    (rx : option (list float)) (s : strokes) (b : float) :
  horizontalPass log10_pos o x y rx = Ok s →
  Opts.beam o = Some (Single b) → PrimFloat.ltb 0%float b = true →
  caps_far s
  = (if not_None (Opts.width o) || not_None (Opts.right o)
     then hcap_far b <$> bars s else [])
  ∧ caps_near s
    = (if not_None (Opts.width o) || not_None (Opts.left o)
       then hcap_near b <$> bars s else []).
Proof.
  unfold horizontalPass. intros H Hb Hpos.
  bind_inv H. destruct v as [x1 x2].
  bind_inv H. bind_inv H. bind_inv H. bind_inv H. destruct v2 as [[fx1 fx2] fy].
  bind_inv H. bind_inv H. rewrite Hb in H. simpl in H. rewrite Hpos in H.
  simpl in H. bind_inv H. bind_inv H. inversion H; subst; clear H. simpl.
  apply nan_filter_Ok in E3 as (_ & _ & _ & _ & _ & L1 & L2).
  rename v2 into n.
  assert (n ≤ length fx1) as Hn.
  { destruct (decide (n ≤ length fx1)) as [|Hgt]; [done|].
    rewrite draw_lines_short in E5 by (try done; lia). done. }
  rewrite draw_lines_take in E5 by done. inversion E5; subst; clear E5.
  set (y1 := (λ u, PrimFloat.sub u (PrimFloat.div b 2%float)) <$> fy) in *.
  set (y2 := (λ u, PrimFloat.add u (PrimFloat.div b 2%float)) <$> fy) in *.
  assert (length y1 = length fy) as Ly1 by (unfold y1; by rewrite length_fmap).
  assert (length y2 = length fy) as Ly2 by (unfold y2; by rewrite length_fmap).
  split.
  - revert E6. destruct (not_None (Opts.width o) || not_None (Opts.right o));
      [|by intros [= <-]]. intros E6.
    rewrite draw_lines_take in E6 by lia.
    inversion E6. unfold y1, y2. rewrite (lines_hcap_far b fx1 fx2 fy) by done.
    by rewrite fmap_take.
  - revert E7. destruct (not_None (Opts.width o) || not_None (Opts.left o));
      [|by intros [= <-]]. intros E7.
    rewrite draw_lines_take in E7 by lia.
    inversion E7. unfold y1, y2. rewrite (lines_hcap_near b fx1 fx2 fy) by done.
    by rewrite fmap_take.
Qed.

(** ** Well-shaped input *)

Lemma select_length_le {A} (mask : list bool) (a : list A) :
  length (select mask a) ≤ length a.
Proof.
  revert a. induction mask as [|m mask IH]; intros [|u a]; simpl; try lia.
  specialize (IH a). destruct m; simpl; lia.
Qed.

Lemma spec_vertical_bars_length (a b c : list float) :
  length b = length a → length c = length a →
  length (spec_vertical_bars a b c) = length (select (keep_mask a b c) a).
Proof.
  intros Hb Hc. rewrite <- lines_vertical_bars by done.
  apply lines_length; by apply select_length_same.
Qed.

Lemma spec_horizontal_bars_length (a b c : list float) :
  length b = length a → length c = length a →
  length (spec_horizontal_bars a b c) = length (select (keep_mask a b c) a).
Proof.
  intros Hb Hc. rewrite <- lines_horizontal_bars by done.
  apply lines_length; by apply select_length_same.
Qed.

Lemma verticalEnds_fits (y : list float) (h t b : option operand) :
  fits_opt (length y) h → fits_opt (length y) t → fits_opt (length y) b →
  ∃ y1 y2, verticalEnds y h t b = Ok (y1, y2)
         ∧ length y1 = length y ∧ length y2 = length y.
Proof.
  intros Hh Ht Hb. unfold verticalEnds, np_sub, np_add. destruct h as [h|].
  - destruct (np_arith_fits PrimFloat.sub y (halve h)) as (y1 & E1 & L1 & _);
      [by apply fits_halve|].
    destruct (np_arith_fits PrimFloat.add y (halve h)) as (y2 & E2 & L2 & _);
      [by apply fits_halve|].
    rewrite E1, E2. simpl. by exists y1, y2.
  - destruct (np_arith_fits_opt PrimFloat.sub y b Hb) as (y1 & E1 & L1 & _).
    destruct (np_arith_fits_opt PrimFloat.add y t Ht) as (y2 & E2 & L2 & _).
    rewrite E1. simpl. rewrite E2. simpl. by exists y1, y2.
Qed.

Lemma verticalPass_succeeds (o : Opts.t) (x y : list float) :
  length y = length x →
  fits_opt (length y) (Opts.height o) → fits_opt (length y) (Opts.top o) →
  fits_opt (length y) (Opts.bottom o) →
  Opts.beam o = None ∨ (∃ b, Opts.beam o = Some (Single b)) →
  ∃ s rx', verticalPass log10_pos o x y = Ok (s, rx')
         ∧ length (bars s) = length rx' ∧ length rx' ≤ length x.
Proof.
  intros Lxy Hh Ht Hb Hbeam. unfold verticalPass.
  destruct (verticalEnds_fits y _ _ _ Hh Ht Hb) as (y1 & y2 & -> & L1 & L2).
  simpl.
  destruct (getDrawValue_total o x true) as (rx & -> & Lx). simpl.
  destruct (getDrawValue_total o y1 false) as (ry1 & -> & Ly1). simpl.
  destruct (getDrawValue_total o y2 false) as (ry2 & -> & Ly2). simpl.
  rewrite nan_filter_same_length by congruence. simpl.
  set (m := keep_mask rx ry1 ry2).
  assert (length (select m ry1) = length (select m rx)) as S1
    by (apply select_length_same; congruence).
  assert (length (select m ry2) = length (select m rx)) as S2
    by (apply select_length_same; congruence).
  rewrite draw_lines_full by done. simpl.
  assert (length (lines (select m rx) (select m ry1) (select m rx) (select m ry2))
          = length (select m rx)) as Lb by (by apply lines_length).
  assert (length (select m rx) ≤ length x) as Lle.
  { rewrite <- Lx. apply select_length_le. }
  destruct Hbeam as [-> | [b ->]]; simpl.
  - by eexists _, _.
  - destruct (PrimFloat.ltb 0 b); simpl; [|by eexists _, _].
    set (x1 := (λ u, PrimFloat.sub u (PrimFloat.div b 2%float)) <$> select m rx).
    set (x2 := (λ u, PrimFloat.add u (PrimFloat.div b 2%float)) <$> select m rx).
    assert (length (select m rx) = length x1) as E1
      by (unfold x1; by rewrite length_fmap).
    assert (length x2 = length x1) as E2
      by (unfold x1, x2; by rewrite !length_fmap).
    rewrite E1.
    destruct (not_None (Opts.height o) || not_None (Opts.top o));
      destruct (not_None (Opts.height o) || not_None (Opts.bottom o));
      rewrite ?draw_lines_full by congruence; simpl;
      eexists _, _; (split; [reflexivity|]); simpl; split; congruence.
Qed.

(** X12: an item with vertical bars only, on well-shaped data ([x] and [y]
    of one length, each magnitude a single value or an array of that
    length, the beam [None] or a single value) always gets its path built:
    [drawPath] does not raise, whatever the values and the log mode, and
    draws one bar per point it keeps, at most one per point. *)
Theorem vertical_only_succeeds (o : Opts.t) (x y : list float) :
  Opts.x o = Some x → Opts.y o = Some y → length y = length x →
  fits_opt (length y) (Opts.height o) → fits_opt (length y) (Opts.top o) →
  fits_opt (length y) (Opts.bottom o) →
  not_None (Opts.height o) || not_None (Opts.top o) || not_None (Opts.bottom o)
    = true →
  Opts.width o = None → Opts.right o = None → Opts.left o = None →
  Opts.beam o = None ∨ (∃ b, Opts.beam o = Some (Single b)) →
  ∃ s rx',
    verticalPass log10_pos o x y = Ok (s, rx')
    ∧ buildPath log10_pos o = Ok (Some (issued s))
    ∧ length (bars s) = length rx' ∧ length rx' ≤ length x
    ∧ ∀ self, opts self = o → path self = None →
        boundingRect log10_pos QRectF QPainterPath_boundingRect self
        = Ok (QPainterPath_boundingRect (issued s),
              {| opts := o; path := Some (issued s);
                 events := events self ++ [PrepareGeometryChange] |}).
Proof.
  intros Hx Hy Lxy Hh Ht Hb Hv Hw Hr Hl Hbeam.
  destruct (verticalPass_succeeds o x y Lxy Hh Ht Hb Hbeam) as (s & rx' & E & L1 & L2).
  assert (buildPath log10_pos o = Ok (Some (issued s))) as Hbp.
  { unfold buildPath, drawStrokes. rewrite Hx, Hy, Hv, Hw, Hr, Hl, E. simpl.
    by rewrite app_nil_r. }
  exists s, rx'. repeat split; try done.
  intros self Ho Hp. unfold boundingRect, drawPath. by rewrite Hp, Ho, Hbp.
Qed.

(** ** Both passes *)

Lemma verticalPass_plain (o : Opts.t) (x y y1 y2 rx ry1 ry2 : list float) :
  verticalEnds y (Opts.height o) (Opts.top o) (Opts.bottom o) = Ok (y1, y2) →
  getDrawValue log10_pos o x true = Ok rx →
  getDrawValue log10_pos o y1 false = Ok ry1 →
  getDrawValue log10_pos o y2 false = Ok ry2 →
  length ry1 = length rx → length ry2 = length rx →
  Opts.beam o = None →
  verticalPass log10_pos o x y
  = Ok (mkStrokes (spec_vertical_bars rx ry1 ry2) [] [],
        select (keep_mask rx ry1 ry2) rx).
Proof.
  intros He Hx H1 H2 L1 L2 Hb. unfold verticalPass.
  rewrite He. simpl. rewrite Hx. simpl. rewrite H1. simpl. rewrite H2. simpl.
  rewrite nan_filter_same_length by done. simpl.
  rewrite draw_lines_full by (by apply select_length_same). simpl.
  by rewrite Hb, lines_vertical_bars.
Qed.

Lemma horizontalPass_plain (o : Opts.t) (x y x1 x2 rx1 rx2 ry r : list float) :
  horizontalEnds x (Opts.width o) (Opts.left o) (Opts.right o) = Ok (x1, x2) →
  getDrawValue log10_pos o x1 true = Ok rx1 →
  getDrawValue log10_pos o x2 true = Ok rx2 →
  getDrawValue log10_pos o y false = Ok ry →
  length rx2 = length rx1 → length ry = length rx1 →
  Opts.beam o = None →
  (length r ≤ length (spec_horizontal_bars rx1 rx2 ry) →
   horizontalPass log10_pos o x y (Some r)
   = Ok (mkStrokes (take (length r) (spec_horizontal_bars rx1 rx2 ry)) [] []))
  ∧ (length (spec_horizontal_bars rx1 rx2 ry) < length r →
     horizontalPass log10_pos o x y (Some r) = Raise IndexError).
Proof.
  intros He H1 H2 Hy L1 L2 Hb. unfold horizontalPass.
  rewrite He. simpl. rewrite H1. simpl. rewrite H2. simpl. rewrite Hy. simpl.
  rewrite nan_filter_same_length by done. simpl.
  rewrite spec_horizontal_bars_length by done.
  set (m := keep_mask rx1 rx2 ry).
  assert (length (select m rx2) = length (select m rx1)) as S1
    by (by apply select_length_same).
  assert (length (select m ry) = length (select m rx1)) as S2
    by (by apply select_length_same).
  split; intros Hr.
  - rewrite draw_lines_take by done. simpl. subst m.
    by rewrite Hb, lines_horizontal_bars.
  - by rewrite draw_lines_short.
Qed.

(** X13: with a vertical and a horizontal option set, no beam and
    well-shaped arrays, [drawPath] draws the vertical bars of the points
    the vertical filter keeps and then as many horizontal bars as there
    are vertical ones, taken from the front of the points the horizontal
    filter keeps: all of them when both filters keep the same number of
    points; it raises [IndexError] when the horizontal filter keeps
    fewer points than the vertical one. *)
Theorem both_passes (o : Opts.t) (x y y1 y2 rx ry1 ry2 x1 x2 rx1 rx2 ry : list float) :
  Opts.x o = Some x → Opts.y o = Some y →
  not_None (Opts.height o) || not_None (Opts.top o) || not_None (Opts.bottom o)
    = true →
  not_None (Opts.width o) || not_None (Opts.right o) || not_None (Opts.left o)
    = true →
  Opts.beam o = None →
  verticalEnds y (Opts.height o) (Opts.top o) (Opts.bottom o) = Ok (y1, y2) →
  getDrawValue log10_pos o x true = Ok rx →
  getDrawValue log10_pos o y1 false = Ok ry1 →
  getDrawValue log10_pos o y2 false = Ok ry2 →
  length ry1 = length rx → length ry2 = length rx →
  horizontalEnds x (Opts.width o) (Opts.left o) (Opts.right o) = Ok (x1, x2) →
  getDrawValue log10_pos o x1 true = Ok rx1 →
  getDrawValue log10_pos o x2 true = Ok rx2 →
  getDrawValue log10_pos o y false = Ok ry →
  length rx2 = length rx1 → length ry = length rx1 →
  (length (spec_vertical_bars rx ry1 ry2)
   ≤ length (spec_horizontal_bars rx1 rx2 ry) →
   buildPath log10_pos o
   = Ok (Some (spec_vertical_bars rx ry1 ry2
               ++ take (length (spec_vertical_bars rx ry1 ry2))
                    (spec_horizontal_bars rx1 rx2 ry))))
  ∧ (length (spec_vertical_bars rx ry1 ry2)
     = length (spec_horizontal_bars rx1 rx2 ry) →
     buildPath log10_pos o
     = Ok (Some (spec_vertical_bars rx ry1 ry2
                 ++ spec_horizontal_bars rx1 rx2 ry)))
  ∧ (length (spec_horizontal_bars rx1 rx2 ry)
     < length (spec_vertical_bars rx ry1 ry2) →
     buildPath log10_pos o = Raise IndexError).
Proof.
  intros Hx Hy Hv Hh Hb Ev Ex E1 E2 L1 L2 Eh Ex1 Ex2 Ey L3 L4.
  pose proof (verticalPass_plain o x y _ _ _ _ _ Ev Ex E1 E2 L1 L2 Hb) as Vp.
  destruct (horizontalPass_plain o x y _ _ _ _ _
              (select (keep_mask rx ry1 ry2) rx) Eh Ex1 Ex2 Ey L3 L4 Hb)
    as [Hok Hshort].
  rewrite <- spec_vertical_bars_length in Hok, Hshort by done.
  assert (length (spec_vertical_bars rx ry1 ry2)
          ≤ length (spec_horizontal_bars rx1 rx2 ry) →
          buildPath log10_pos o
          = Ok (Some (spec_vertical_bars rx ry1 ry2
                      ++ take (length (spec_vertical_bars rx ry1 ry2))
                           (spec_horizontal_bars rx1 rx2 ry)))) as Hle.
  { intros Hn. unfold buildPath, drawStrokes.
    rewrite Hx, Hy, Hv, Hh, Vp. simpl. rewrite (Hok Hn). simpl.
    unfold issued. simpl. by rewrite !app_nil_r. }
  split; [done|]. split.
  - intros Hn. rewrite Hle by lia. by rewrite Hn, firstn_all.
  - intros Hn. unfold buildPath, drawStrokes.
    rewrite Hx, Hy, Hv, Hh, Vp. simpl. by rewrite (Hshort Hn).
Qed.

(** ** The bars drawn when height is set *)

(** The bars of a vertical pass that returns are the contributions of the
    points, read off the transformed arrays. *)
Lemma verticalPass_bars (o : Opts.t) (x y y1 y2 rx ry1 ry2 : list float)
    (s : strokes) (rx' : list float) :
  verticalEnds y (Opts.height o) (Opts.top o) (Opts.bottom o) = Ok (y1, y2) →
  getDrawValue log10_pos o x true = Ok rx →
  getDrawValue log10_pos o y1 false = Ok ry1 →
  getDrawValue log10_pos o y2 false = Ok ry2 →
  verticalPass log10_pos o x y = Ok (s, rx') →
  bars s = spec_vertical_bars rx ry1 ry2.
Proof.
  intros He Hx H1 H2 H.
  apply verticalPass_Ok in H
    as (y1' & y2' & rx0 & ry1' & ry2' & fy1 & fy2 & E & Ex & E1 & E2 & Ef & Ed & _).
  rewrite He in E. inversion E; subst y1' y2'.
  rewrite Hx in Ex. rewrite H1 in E1. rewrite H2 in E2.
  inversion Ex; inversion E1; inversion E2; subst.
  apply nan_filter_Ok in Ef as (L1 & L2 & -> & -> & -> & S1 & S2).
  rewrite draw_lines_full in Ed by done.
  rewrite lines_vertical_bars in Ed by done. by inversion Ed.
Qed.

(** On arrays of one length, with no beam or a single-valued one, the
    vertical pass returns. *)
Lemma verticalPass_from_ends (o : Opts.t) (x y y1 y2 rx ry1 ry2 : list float) :
  verticalEnds y (Opts.height o) (Opts.top o) (Opts.bottom o) = Ok (y1, y2) →
  getDrawValue log10_pos o x true = Ok rx →
  getDrawValue log10_pos o y1 false = Ok ry1 →
  getDrawValue log10_pos o y2 false = Ok ry2 →
  length ry1 = length rx → length ry2 = length rx →
  Opts.beam o = None ∨ (∃ b, Opts.beam o = Some (Single b)) →
  ∃ s rx', verticalPass log10_pos o x y = Ok (s, rx').
Proof.
  intros He Hx H1 H2 L1 L2 Hbeam. unfold verticalPass.
  rewrite He. simpl. rewrite Hx. simpl. rewrite H1. simpl. rewrite H2. simpl.
  rewrite nan_filter_same_length by done. simpl.
  set (m := keep_mask rx ry1 ry2).
  assert (length (select m ry1) = length (select m rx)) as S1
    by (by apply select_length_same).
  assert (length (select m ry2) = length (select m rx)) as S2
    by (by apply select_length_same).
  rewrite draw_lines_full by done. simpl.
  destruct Hbeam as [-> | [b ->]]; simpl; [by eexists _, _|].
  destruct (PrimFloat.ltb 0 b); simpl; [|by eexists _, _].
  set (x1 := (λ u, PrimFloat.sub u (PrimFloat.div b 2%float)) <$> select m rx).
  set (x2 := (λ u, PrimFloat.add u (PrimFloat.div b 2%float)) <$> select m rx).
  assert (length (select m rx) = length x1) as E1
    by (unfold x1; by rewrite length_fmap).
  assert (length x2 = length x1) as E2
    by (unfold x1, x2; by rewrite !length_fmap).
  rewrite E1.
  destruct (not_None (Opts.height o) || not_None (Opts.top o));
    destruct (not_None (Opts.height o) || not_None (Opts.bottom o));
    rewrite ?draw_lines_full by congruence; simpl; by eexists _, _.
Qed.

(** C3: with [height] set, the ends of the vertical bars are
    [y - height/2] and [y + height/2] whatever [top] and [bottom] are, and
    replacing [top] and [bottom] by any other values changes nothing of
    what [drawPath] draws. The bars drawn are those ends: on [x] and [y]
    of one length and a [height] that fits them, whenever [drawPath] gets
    through its passes the vertical bars are, point by point, the segment
    from [(rx, ry1)] to [(rx, ry2)] where [rx], [ry1], [ry2] are the
    transforms of [x], [y - height/2], [y + height/2] (these arrays
    themselves on linear axes) and none of the three is NaN; with no beam
    or a single-valued one the vertical pass does return these bars, and
    without horizontal options they, with their caps, are the path. *)
Theorem height_overrides_top_bottom (o : Opts.t) (h : operand) :
  Opts.height o = Some h →
  (∀ y t b, verticalEnds y (Some h) t b
            = (y1 ← np_sub y (halve h); y2 ← np_add y (halve h); Ok (y1, y2)))
  ∧ (∀ y t b, fits (length y) h →
       ∃ y1 y2, verticalEnds y (Some h) t b = Ok (y1, y2)
              ∧ length y1 = length y ∧ length y2 = length y
              ∧ ∀ i u w, y !! i = Some u → operand_at h i = Some w →
                  y1 !! i = Some (PrimFloat.sub u (PrimFloat.div w 2%float))
                  ∧ y2 !! i = Some (PrimFloat.add u (PrimFloat.div w 2%float)))
  ∧ (∀ t b, drawStrokes log10_pos (Opts.with_top_bottom o t b)
            = drawStrokes log10_pos o)
  ∧ (∀ x y, Opts.x o = Some x → Opts.y o = Some y →
       length y = length x → fits (length y) h →
       ∃ y1 y2 rx ry1 ry2,
         np_sub y (halve h) = Ok y1 ∧ np_add y (halve h) = Ok y2
         ∧ (∀ i u w, y !! i = Some u → operand_at h i = Some w →
              y1 !! i = Some (PrimFloat.sub u (PrimFloat.div w 2%float))
              ∧ y2 !! i = Some (PrimFloat.add u (PrimFloat.div w 2%float)))
         ∧ getDrawValue log10_pos o x true = Ok rx
         ∧ getDrawValue log10_pos o y1 false = Ok ry1
         ∧ getDrawValue log10_pos o y2 false = Ok ry2
         ∧ (Opts.logMode o = (false, false) → rx = x ∧ ry1 = y1 ∧ ry2 = y2)
         ∧ (∀ r, drawStrokes log10_pos o = Ok r →
              ∃ v hs, r = Some (v, hs)
                    ∧ bars v = spec_vertical_bars rx ry1 ry2)
         ∧ (Opts.beam o = None ∨ (∃ b, Opts.beam o = Some (Single b)) →
            ∃ s rx',
              verticalPass log10_pos o x y = Ok (s, rx')
              ∧ bars s = spec_vertical_bars rx ry1 ry2
              ∧ (Opts.width o = None → Opts.right o = None →
                 Opts.left o = None →
                 buildPath log10_pos o = Ok (Some (issued s)))))
  ∧ (∀ x y hv, h = Single hv → Opts.x o = Some x → Opts.y o = Some y →
       length y = length x → Opts.logMode o = (false, false) →
       Opts.beam o = None ∨ (∃ b, Opts.beam o = Some (Single b)) →
       ∃ s rx',
         verticalPass log10_pos o x y = Ok (s, rx')
         ∧ bars s
           = spec_vertical_bars x
               ((λ u, PrimFloat.sub u (PrimFloat.div hv 2%float)) <$> y)
               ((λ u, PrimFloat.add u (PrimFloat.div hv 2%float)) <$> y)).
Proof.
  intros Hh.
  assert (∀ x y, Opts.x o = Some x → Opts.y o = Some y →
       length y = length x → fits (length y) h →
       ∃ y1 y2 rx ry1 ry2,
         np_sub y (halve h) = Ok y1 ∧ np_add y (halve h) = Ok y2
         ∧ (∀ i u w, y !! i = Some u → operand_at h i = Some w →
              y1 !! i = Some (PrimFloat.sub u (PrimFloat.div w 2%float))
              ∧ y2 !! i = Some (PrimFloat.add u (PrimFloat.div w 2%float)))
         ∧ getDrawValue log10_pos o x true = Ok rx
         ∧ getDrawValue log10_pos o y1 false = Ok ry1
         ∧ getDrawValue log10_pos o y2 false = Ok ry2
         ∧ (Opts.logMode o = (false, false) → rx = x ∧ ry1 = y1 ∧ ry2 = y2)
         ∧ (∀ r, drawStrokes log10_pos o = Ok r →
              ∃ v hs, r = Some (v, hs)
                    ∧ bars v = spec_vertical_bars rx ry1 ry2)
         ∧ (Opts.beam o = None ∨ (∃ b, Opts.beam o = Some (Single b)) →
            ∃ s rx',
              verticalPass log10_pos o x y = Ok (s, rx')
              ∧ bars s = spec_vertical_bars rx ry1 ry2
              ∧ (Opts.width o = None → Opts.right o = None →
                 Opts.left o = None →
                 buildPath log10_pos o = Ok (Some (issued s))))) as Hdrawn.
  { intros x y Hx Hy Lxy Hf. unfold np_sub, np_add.
    destruct (np_arith_fits PrimFloat.sub y (halve h)) as (y1 & E1 & L1 & P1);
      [by apply fits_halve|].
    destruct (np_arith_fits PrimFloat.add y (halve h)) as (y2 & E2 & L2 & P2);
      [by apply fits_halve|].
    destruct (getDrawValue_total o x true) as (rx & Ex & Lx).
    destruct (getDrawValue_total o y1 false) as (ry1 & Ey1 & Ly1).
    destruct (getDrawValue_total o y2 false) as (ry2 & Ey2 & Ly2).
    assert (verticalEnds y (Opts.height o) (Opts.top o) (Opts.bottom o)
            = Ok (y1, y2)) as He.
    { rewrite Hh. simpl. unfold np_sub, np_add. by rewrite E1, E2. }
    exists y1, y2, rx, ry1, ry2.
    split; [done|]. split; [done|]. split.
    { intros i u w Hu Hw. split.
      - apply P1; [done|]. by apply operand_at_halve.
      - apply P2; [done|]. by apply operand_at_halve. }
    split; [done|]. split; [done|]. split; [done|]. split.
    { intros Hl. rewrite getDrawValue_linear in Ex, Ey1, Ey2 by done.
      by inversion Ex; inversion Ey1; inversion Ey2. }
    split.
    - intros r Hr. unfold drawStrokes in Hr. rewrite Hx, Hy, Hh in Hr.
      simpl in Hr. bind_inv Hr. destruct v as [v rxv].
      bind_inv E. destruct v0 as [s rx0]. inversion E; subst; clear E.
      bind_inv Hr. inversion Hr; subst; clear Hr.
      eexists _, _. split; [done|].
      by eapply verticalPass_bars.
    - intros Hbeam.
      destruct (verticalPass_from_ends o x y y1 y2 rx ry1 ry2 He Ex Ey1 Ey2)
        as (s & rx' & Hv); [congruence | congruence | done |].
      exists s, rx'. split; [done|]. split; [by eapply verticalPass_bars|].
      intros Hw Hr Hl. unfold buildPath, drawStrokes.
      rewrite Hx, Hy, Hh, Hw, Hr, Hl, Hv. simpl. by rewrite app_nil_r. }
  split; [done|]. split; [|split; [|split; [done|]]].
  - intros y t b Hf. simpl. unfold np_sub, np_add.
    destruct (np_arith_fits PrimFloat.sub y (halve h)) as (y1 & E1 & L1 & P1);
      [by apply fits_halve|].
    destruct (np_arith_fits PrimFloat.add y (halve h)) as (y2 & E2 & L2 & P2);
      [by apply fits_halve|].
    rewrite E1, E2. simpl. exists y1, y2. repeat split; try done.
    + apply P1; [done|]. by apply operand_at_halve.
    + apply P2; [done|]. by apply operand_at_halve.
  - intros t b. destruct o; simpl in *; subst.
    unfold drawStrokes, verticalPass, horizontalPass, getDrawValue; simpl.
    reflexivity.
  - intros x y hv -> Hx Hy Lxy Hl Hbeam.
    destruct (Hdrawn x y Hx Hy Lxy I)
      as (y1 & y2 & rx & ry1 & ry2 & E1 & E2 & _ & _ & _ & _ & Hlin & _ & Hs).
    destruct (Hlin Hl) as (-> & -> & ->).
    destruct (Hs Hbeam) as (s & rx' & Hv & Hb & _).
    exists s, rx'. split; [done|].
    unfold np_sub, np_add in E1, E2. simpl in E1, E2.
    inversion E1; inversion E2; subst. done.
Qed.

End Coverage.

(** ** Closed instances *)

(** The item built without arguments: no [x], no [y], no path. *)
Lemma boundingRect_without_xy_witness :
  path (init Kwargs.empty) = None
  ∧ (Opts.x (opts (init Kwargs.empty)) = None
     ∨ Opts.y (opts (init Kwargs.empty)) = None)
  ∧ drawPath log10_unreached (init Kwargs.empty) = Ok (init Kwargs.empty)
  ∧ boundingRect log10_unreached unit (λ _, ()) (init Kwargs.empty)
    = Raise AttributeError.
Proof.
  split; [reflexivity|]. split; [left; reflexivity|].
  apply (boundingRect_without_xy log10_unreached unit (λ _, ()) (init Kwargs.empty));
    [reflexivity | left; reflexivity].
Defined.

(** Scenario B: bars from 8 to 12 and from 18 to 22, also with [top]
    dropped and [bottom] set to 7. *)
Lemma height_overrides_top_bottom_witness :
  Opts.height scenario_B = Some (NdArray [4; 4]%float)
  ∧ verticalEnds [10; 20]%float (Some (NdArray [4; 4]%float))
      (Opts.top scenario_B) (Opts.bottom scenario_B)
    = Ok ([8; 18]%float, [12; 22]%float)
  ∧ drawStrokes log10_unreached (Opts.with_top_bottom scenario_B None (val 7%float))
    = drawStrokes log10_unreached scenario_B
  ∧ ∃ s rx',
      verticalPass log10_unreached scenario_B [1; 2]%float [10; 20]%float
      = Ok (s, rx')
      ∧ bars s = [Line 1 8 1 12; Line 2 18 2 22]%float
      ∧ buildPath log10_unreached scenario_B = Ok (Some (issued s)).
Proof.
  split; [reflexivity|]. split; [vm_compute; reflexivity|].
  destruct (height_overrides_top_bottom log10_unreached scenario_B
              (NdArray [4; 4]%float) eq_refl) as (_ & _ & Hinv & Hdrawn & _).
  split; [apply Hinv|].
  destruct (Hdrawn [1; 2]%float [10; 20]%float eq_refl eq_refl eq_refl eq_refl)
    as (y1 & y2 & rx & ry1 & ry2 & E1 & E2 & _ & Ex & Ey1 & Ey2 & _ & _ & Hs).
  destruct (Hs (or_intror (ex_intro _ 0.5%float eq_refl)))
    as (s & rx' & Hv & Hb & Hp).
  exists s, rx'. split; [exact Hv|]. split; [|exact (Hp eq_refl eq_refl eq_refl)].
  rewrite Hb.
  vm_compute in E1. vm_compute in E2. vm_compute in Ex.
  injection E1 as <-. injection E2 as <-. injection Ex as <-.
  vm_compute in Ey1. vm_compute in Ey2.
  injection Ey1 as <-. injection Ey2 as <-.
  vm_compute. reflexivity.
Defined.

(** Two points, the first with a NaN upper end: one bar, at the second. *)
Lemma vertical_pass_drops_nan_points_witness :
  verticalEnds [1; 1]%float (Opts.height nan_top) (Opts.top nan_top)
    (Opts.bottom nan_top)
  = Ok ([1; 1]%float, [PrimFloat.nan; 2%float])
  ∧ verticalPass log10_unreached nan_top [1; 2]%float [1; 1]%float
    = Ok (mkStrokes [Line 2 1 2 2]%float [] [], [2%float])
  ∧ bars (mkStrokes [Line 2 1 2 2]%float [] [])
    = spec_vertical_bars [1; 2]%float [1; 1]%float [PrimFloat.nan; 2%float].
Proof.
  split; [vm_compute; reflexivity|]. split; [vm_compute; reflexivity|].
  eapply (vertical_pass_drops_nan_points log10_unreached nan_top
           [1; 2]%float [1; 1]%float [1; 1]%float [PrimFloat.nan; 2%float]
           [1; 2]%float [1; 1]%float [PrimFloat.nan; 2%float]
           ltac:(vm_compute; reflexivity) ltac:(reflexivity) ltac:(reflexivity)
           ltac:(reflexivity)) with (rx' := [2%float]).
  vm_compute; reflexivity.
Defined.

(** Scenario A with a beam of 0: the two bars and no cap. *)
Lemma caps_need_beam_witness :
  drawStrokes log10_unreached (Opts.with_beam scenario_A (val 0%float))
  = Ok (Some (mkStrokes [Line 1 9 1 11; Line 2 19 2 21]%float [] [],
              mkStrokes [] [] []))
  ∧ Opts.beam (Opts.with_beam scenario_A (val 0%float)) = Some (Single 0%float)
  ∧ caps_far (mkStrokes [Line 1 9 1 11; Line 2 19 2 21]%float [] []) = [].
Proof.
  split; [vm_compute; reflexivity|]. split; [reflexivity|].
  destruct (caps_need_beam log10_unreached (Opts.with_beam scenario_A (val 0%float))
              (mkStrokes [Line 1 9 1 11; Line 2 19 2 21]%float [] [])
              (mkStrokes [] [] [])
              ltac:(vm_compute; reflexivity)) as [H _].
  apply H. right. exists (Single 0%float). split; reflexivity.
Defined.

(** Scenario A drawn twice. *)
Lemma drawPath_idempotent_witness :
  drawPath log10_unreached (stale scenario_A)
  = Ok {| opts := scenario_A;
          path := Some [Line 1 9 1 11; Line 2 19 2 21;
                        Line 0.75 11 1.25 11; Line 1.75 21 2.25 21;
                        Line 0.75 9 1.25 9; Line 1.75 19 2.25 19]%float;
          events := [PrepareGeometryChange] |}
  ∧ ∃ self2,
      drawPath log10_unreached
        {| opts := scenario_A;
           path := Some [Line 1 9 1 11; Line 2 19 2 21;
                         Line 0.75 11 1.25 11; Line 1.75 21 2.25 21;
                         Line 0.75 9 1.25 9; Line 1.75 19 2.25 19]%float;
           events := [PrepareGeometryChange] |}
      = Ok self2
      ∧ path self2
        = Some [Line 1 9 1 11; Line 2 19 2 21;
                Line 0.75 11 1.25 11; Line 1.75 21 2.25 21;
                Line 0.75 9 1.25 9; Line 1.75 19 2.25 19]%float
      ∧ opts self2 = scenario_A.
Proof.
  split; [vm_compute; reflexivity|].
  destruct (drawPath_idempotent log10_unreached (stale scenario_A) _
              ltac:(vm_compute; reflexivity)) as [H _].
  exact H.
Defined.

(** C5, as the specification words it, fails at zero: on a logarithmic
    axis the value 0 (which is [≤ 0]) becomes minus infinity, which is not
    NaN. *)
Lemma log10_of_zero_is_not_nan :
  PrimFloat.leb 0%float 0%float = true
  ∧ getDrawValue log10_unreached x_log [0%float] true = Ok [PrimFloat.neg_infinity]
  ∧ PrimFloat.is_nan PrimFloat.neg_infinity = false.
Proof. repeat split. Qed.

(** ** Closed instances of the further properties *)

(** Scenario A, with the number of strokes standing for the rectangle:
    built by the first call, answered from the stored path by the second. *)
Lemma boundingRect_idempotent_witness :
  boundingRect log10_unreached nat length (stale scenario_A)
  = Ok (6, {| opts := scenario_A;
              path := Some [Line 1 9 1 11; Line 2 19 2 21;
                            Line 0.75 11 1.25 11; Line 1.75 21 2.25 21;
                            Line 0.75 9 1.25 9; Line 1.75 19 2.25 19]%float;
              events := [PrepareGeometryChange] |})
  ∧ boundingRect log10_unreached nat length
      {| opts := scenario_A;
         path := Some [Line 1 9 1 11; Line 2 19 2 21;
                       Line 0.75 11 1.25 11; Line 1.75 21 2.25 21;
                       Line 0.75 9 1.25 9; Line 1.75 19 2.25 19]%float;
         events := [PrepareGeometryChange] |}
    = Ok (6, {| opts := scenario_A;
                path := Some [Line 1 9 1 11; Line 2 19 2 21;
                              Line 0.75 11 1.25 11; Line 1.75 21 2.25 21;
                              Line 0.75 9 1.25 9; Line 1.75 19 2.25 19]%float;
                events := [PrepareGeometryChange] |}).
Proof.
  split; [vm_compute; reflexivity|].
  destruct (boundingRect_idempotent log10_unreached nat length Pen id (PenSpec "d")
              (stale scenario_A) _ 6 ltac:(vm_compute; reflexivity))
    as [H _].
  exact H.
Defined.

(** One point with a [width] and no vertical option: [NameError]. *)
Lemma buildPath_raises_witness :
  buildPath log10_unreached only_width = Raise NameError
  ∧ Opts.height only_width = None ∧ Opts.top only_width = None
  ∧ Opts.bottom only_width = None.
Proof.
  split; [vm_compute; reflexivity|].
  destruct (buildPath_raises log10_unreached only_width NameError
              ltac:(vm_compute; reflexivity)) as [_ H].
  destruct (H eq_refl) as (H1 & H2 & H3 & _). auto.
Defined.

(** Two points and a [height] of three entries. *)
Lemma mismatched_height_raises_witness :
  Opts.height bad_height = Some (NdArray [1; 1; 1]%float)
  ∧ buildPath log10_unreached bad_height = Raise ValueError.
Proof.
  split; [reflexivity|].
  destruct (mismatched_height_raises log10_unreached unit (λ _, ()) Pen id
              (PenSpec "d") bad_height [1; 2]%float [5; 6]%float [1; 1; 1]%float
              eq_refl eq_refl eq_refl) as [H _];
    [simpl; lia | simpl; lia | simpl; lia | exact H].
Defined.

(** Two points with a [top] of 1 and no [bottom]: bars from 5 to 6 and
    from 6 to 7. *)
Lemma vertical_ends_without_height_witness :
  fits_opt 2 (val 1%float) ∧ fits_opt 2 None
  ∧ ∃ y1 y2, verticalEnds [5; 6]%float None (val 1%float) None = Ok (y1, y2)
           ∧ y1 = [5; 6]%float
           ∧ y2 !! 1 = Some (PrimFloat.add 6 1)%float.
Proof.
  split; [exact I|]. split; [exact I|].
  destruct (vertical_ends_without_height [5; 6]%float (val 1%float) None I I)
    as (y1 & y2 & E & _ & _ & Hb & _ & _ & Ht).
  exists y1, y2. split; [exact E|]. split; [exact (Hb eq_refl)|].
  exact (Ht (Single 1%float) eq_refl 1 6%float 1%float eq_refl eq_refl).
Defined.

(** Three bars of height 2 with a beam of 1. *)
Lemma vertical_caps_follow_bars_witness :
  verticalPass log10_unreached three_bars [1; 2; 3]%float [5; 6; 7]%float
  = Ok (mkStrokes [Line 1 4 1 6; Line 2 5 2 7; Line 3 6 3 8]%float
          [Line 0.5 6 1.5 6; Line 1.5 7 2.5 7; Line 2.5 8 3.5 8]%float
          [Line 0.5 4 1.5 4; Line 1.5 5 2.5 5; Line 2.5 6 3.5 6]%float,
        [1; 2; 3]%float)
  ∧ Opts.beam three_bars = Some (Single 1%float)
  ∧ PrimFloat.ltb 0%float 1%float = true
  ∧ [Line 0.5 6 1.5 6; Line 1.5 7 2.5 7; Line 2.5 8 3.5 8]%float
    = cap_far 1%float <$> [Line 1 4 1 6; Line 2 5 2 7; Line 3 6 3 8]%float.
Proof.
  split; [vm_compute; reflexivity|]. split; [reflexivity|].
  split; [reflexivity|].
  destruct (vertical_caps_follow_bars log10_unreached three_bars
              [1; 2; 3]%float [5; 6; 7]%float _ _ 1%float
              ltac:(vm_compute; reflexivity) eq_refl eq_refl) as [H _].
  exact H.
Defined.

(** The horizontal pass of [cross_bars], after a vertical pass that kept
    both points. *)
Lemma horizontal_caps_follow_bars_witness :
  horizontalPass log10_unreached cross_bars [1; 2]%float [5; 6]%float
    (Some [1; 2]%float)
  = Ok (mkStrokes [Line 0.5 5 1.5 5; Line 1.5 6 2.5 6]%float
          [Line 1.5 4.5 1.5 5.5; Line 2.5 5.5 2.5 6.5]%float
          [Line 0.5 4.5 0.5 5.5; Line 1.5 5.5 1.5 6.5]%float)
  ∧ Opts.beam cross_bars = Some (Single 1%float)
  ∧ PrimFloat.ltb 0%float 1%float = true
  ∧ [Line 1.5 4.5 1.5 5.5; Line 2.5 5.5 2.5 6.5]%float
    = hcap_far 1%float <$> [Line 0.5 5 1.5 5; Line 1.5 6 2.5 6]%float.
Proof.
  split; [vm_compute; reflexivity|]. split; [reflexivity|].
  split; [reflexivity|].
  destruct (horizontal_caps_follow_bars log10_unreached cross_bars
              [1; 2]%float [5; 6]%float (Some [1; 2]%float) _ 1%float
              ltac:(vm_compute; reflexivity) eq_refl eq_refl) as [H _].
  exact H.
Defined.

(** Three bars: well-shaped, vertical only. *)
Lemma vertical_only_succeeds_witness :
  Opts.x three_bars = Some [1; 2; 3]%float
  ∧ Opts.y three_bars = Some [5; 6; 7]%float
  ∧ fits_opt 3 (Opts.height three_bars)
  ∧ Opts.beam three_bars = Some (Single 1%float)
  ∧ ∃ s rx',
      verticalPass log10_unreached three_bars [1; 2; 3]%float [5; 6; 7]%float
      = Ok (s, rx')
      ∧ buildPath log10_unreached three_bars = Ok (Some (issued s))
      ∧ length (bars s) = length rx' ∧ length rx' ≤ 3.
Proof.
  split; [reflexivity|]. split; [reflexivity|]. split; [exact I|].
  split; [reflexivity|].
  destruct (vertical_only_succeeds log10_unreached unit (λ _, ()) three_bars
              [1; 2; 3]%float [5; 6; 7]%float eq_refl eq_refl eq_refl I I I
              eq_refl eq_refl eq_refl eq_refl
              (or_intror (ex_intro _ 1%float eq_refl)))
    as (s & rx' & E & Hb & L1 & L2 & _).
  exists s, rx'. auto.
Defined.

(** Two points with a vertical and a horizontal bar each, no beam. *)
Lemma both_passes_witness :
  verticalEnds [5; 6]%float (Opts.height cross_bars_plain)
    (Opts.top cross_bars_plain) (Opts.bottom cross_bars_plain)
  = Ok ([4; 5]%float, [6; 7]%float)
  ∧ horizontalEnds [1; 2]%float (Opts.width cross_bars_plain)
      (Opts.left cross_bars_plain) (Opts.right cross_bars_plain)
    = Ok ([0.5; 1.5]%float, [1.5; 2.5]%float)
  ∧ buildPath log10_unreached cross_bars_plain
    = Ok (Some (spec_vertical_bars [1; 2]%float [4; 5]%float [6; 7]%float
                ++ spec_horizontal_bars [0.5; 1.5]%float [1.5; 2.5]%float
                     [5; 6]%float))
  ∧ spec_vertical_bars [1; 2]%float [4; 5]%float [6; 7]%float
    = [Line 1 4 1 6; Line 2 5 2 7]%float
  ∧ spec_horizontal_bars [0.5; 1.5]%float [1.5; 2.5]%float [5; 6]%float
    = [Line 0.5 5 1.5 5; Line 1.5 6 2.5 6]%float.
Proof.
  split; [vm_compute; reflexivity|]. split; [vm_compute; reflexivity|].
  split; [|split; vm_compute; reflexivity].
  destruct (both_passes log10_unreached cross_bars_plain
              [1; 2]%float [5; 6]%float [4; 5]%float [6; 7]%float
              [1; 2]%float [4; 5]%float [6; 7]%float
              [0.5; 1.5]%float [1.5; 2.5]%float
              [0.5; 1.5]%float [1.5; 2.5]%float [5; 6]%float
              eq_refl eq_refl eq_refl eq_refl eq_refl
              ltac:(vm_compute; reflexivity) eq_refl eq_refl eq_refl
              eq_refl eq_refl
              ltac:(vm_compute; reflexivity) eq_refl eq_refl eq_refl
              eq_refl eq_refl) as (_ & H & _).
  apply H. vm_compute. reflexivity.
Defined.
